(** * The reflection agent: generate, research, revise

    A shallow embedding of the control loop of the reflection agent
    ([nodes.py], [graph.py], [models.py], [config.py], [main.py]) and the
    properties of its research step and of its termination policy.

    Conventions of the embedding.
    - A Python [str] is a [string]; a character stands for one code point
      below 256.
    - A Python [dict] keeps its keys in insertion order and assigning to a
      key that is already there keeps the key's place: it is an association
      list updated by [dict_set].
    - The language model and the search engine are collaborators outside the
      repository.  They are read through an explicit [World]: every call
      takes the world and gives back an outcome and the next world, so two
      calls with the same argument may differ.
    - Python exceptions are values of [PyExc]; a computation is a function
      from the world to a [result] and the next world.
    - What the nodes print under [VERBOSE] is not part of the model; the
      variable lookups of those print statements are. *)

From Stdlib Require Import List String Ascii Bool Arith ZArith Lia.
Import ListNotations.
Local Open Scope list_scope.
Local Open Scope string_scope.

Set Implicit Arguments.

(* ====================================================================== *)
(** ** Exceptions and results *)
(* ====================================================================== *)

(** A raised Python exception: its class name and what [str(e)] gives.
    [Exception_] is an instance of [Exception]; [BaseException_] is one of
    the few classes that derive from [BaseException] only
    ([KeyboardInterrupt], [SystemExit]), which [except Exception] lets
    through. *)
Inductive PyExc : Type :=
| Exception_ (cls msg : string)
| BaseException_ (cls msg : string).

Definition exc_class (e : PyExc) : string :=
  match e with Exception_ c _ => c | BaseException_ c _ => c end.

(** [str(e)] *)
Definition str (e : PyExc) : string :=
  match e with Exception_ _ m => m | BaseException_ _ m => m end.

(** [isinstance(e, Exception)] *)
Definition isinstance_Exception (e : PyExc) : bool :=
  match e with Exception_ _ _ => true | BaseException_ _ _ => false end.

(** [state[-1]] on an empty list. *)
Definition IndexError : PyExc :=
  Exception_ "IndexError" "list index out of range".

(** [.tool_calls] on a message of class [cls], which is not [AIMessage]. *)
Definition AttributeError (cls : string) : PyExc :=
  Exception_ "AttributeError"
    ("'" ++ cls ++ "' object has no attribute 'tool_calls'").

(** [d[key]] on a dict without [key]. *)
Definition KeyError (key : string) : PyExc :=
  Exception_ "KeyError" ("'" ++ key ++ "'").

(** Reading a local variable that no assignment has reached, with the
    message of Python 3.11 and later.  [UnboundLocalError] is a subclass of
    [NameError]. *)
Definition UnboundLocalError : PyExc :=
  Exception_ "UnboundLocalError"
    "cannot access local variable 'search_queries' where it is not associated with a value".

Definition is_NameError (e : PyExc) : bool :=
  isinstance_Exception e &&
  (String.eqb (exc_class e) "NameError" || String.eqb (exc_class e) "UnboundLocalError").

(** The fault the specification calls [ProtocolViolation]. *)
Definition is_ProtocolViolation (e : PyExc) : bool :=
  String.eqb (exc_class e) "ProtocolViolation".

Inductive result (A : Type) : Type :=
| Ok (a : A)
| Raise (e : PyExc).
Arguments Raise {A} e.

(* ====================================================================== *)
(** ** Strings: slicing and JSON *)
(* ====================================================================== *)

(** The first [n] characters of [s] (all of [s] when it is shorter). *)
Fixpoint take_str (n : nat) (s : string) : string :=
  match n, s with
  | S n', String c s' => String c (take_str n' s')
  | _, _ => EmptyString
  end.

(** Python's [s[:stop]]: a negative [stop] counts from the end. *)
Definition slice_to (stop : Z) (s : string) : string :=
  if (0 <=? stop)%Z
  then take_str (Z.to_nat stop) s
  else take_str (Z.to_nat (Z.of_nat (String.length s) + stop)) s.

Definition chr (n : nat) : string := String (ascii_of_nat n) EmptyString.
Definition newline : string := chr 10.
Definition dquote : string := chr 34.

Definition hex_digit (n : nat) : string :=
  match n with
  | 0 => "0" | 1 => "1" | 2 => "2" | 3 => "3" | 4 => "4" | 5 => "5"
  | 6 => "6" | 7 => "7" | 8 => "8" | 9 => "9" | 10 => "a" | 11 => "b"
  | 12 => "c" | 13 => "d" | 14 => "e" | _ => "f"
  end.

(** [json.encoder.py_encode_basestring_ascii] for one character: the
    printable ASCII characters stand for themselves, except the backslash
    and the double quote; everything else is escaped. *)
Definition json_escape_char (c : ascii) : string :=
  let n := nat_of_ascii c in
  if (n =? 92)%nat then "\\"
  else if (n =? 34)%nat then "\" ++ dquote
  else if (n =? 8)%nat then "\b"
  else if (n =? 12)%nat then "\f"
  else if (n =? 10)%nat then "\n"
  else if (n =? 13)%nat then "\r"
  else if (n =? 9)%nat then "\t"
  else if ((32 <=? n) && (n <=? 126))%nat then String c EmptyString
  else "\u00" ++ hex_digit (n / 16) ++ hex_digit (n mod 16).

Fixpoint json_escape (s : string) : string :=
  match s with
  | EmptyString => EmptyString
  | String c s' => json_escape_char c ++ json_escape s'
  end.

Definition json_string (s : string) : string :=
  dquote ++ json_escape s ++ dquote.

(** An insertion-ordered [dict] from [str] to [str]. *)
Definition dict : Type := list (string * string).

Definition json_item (kv : string * string) : string :=
  json_string (fst kv) ++ ": " ++ json_string (snd kv).

Fixpoint join (sep : string) (l : list string) : string :=
  match l with
  | [] => EmptyString
  | [x] => x
  | x :: rest => x ++ sep ++ join sep rest
  end.

(** [json.dumps(d, indent=2)] *)
Definition json_dumps (d : dict) : string :=
  match d with
  | [] => "{}"
  | _ => "{" ++ newline ++ "  "
         ++ join ("," ++ newline ++ "  ") (map json_item d)
         ++ newline ++ "}"
  end.

(** [d[k] = v] *)
Fixpoint dict_set (k v : string) (d : dict) : dict :=
  match d with
  | [] => [(k, v)]
  | (k', v') :: rest =>
      if String.eqb k' k then (k', v) :: rest
      else (k', v') :: dict_set k v rest
  end.

(** [d.get(k)] *)
Fixpoint dict_get (k : string) (d : dict) : option string :=
  match d with
  | [] => None
  | (k', v') :: rest => if String.eqb k' k then Some v' else dict_get k rest
  end.

(** [list(d)], the keys in order. *)
Definition keys (d : dict) : list string := map fst d.

(* ====================================================================== *)
(** ** Configuration ([config.py]) *)
(* ====================================================================== *)

Record Config : Type := {
  MAX_ITERATIONS : Z;
  SEARCH_RESULT_LIMIT : Z;
  VERBOSE : bool
}.

(** The values [config.py] sets. *)
Definition config : Config :=
  {| MAX_ITERATIONS := 2; SEARCH_RESULT_LIMIT := 800; VERBOSE := true |}.

(* ====================================================================== *)
(** ** Records and messages ([models.py], langchain messages) *)
(* ====================================================================== *)

(** The value sent for [reflection]: a dict, whose two keys may be absent
    as those of [args] may. *)
Record Reflection : Type := {
  missing : option string;
  superfluous : option string
}.

(** The [args] of a tool call: a dict as the model sent it, so every key may
    be absent. *)
Record Args : Type := {
  answer : option string;
  reflection : option Reflection;
  search_queries : option (list string);
  references : option (list string)
}.

Record ToolCall : Type := {
  name : string;
  id : string;
  args : Args
}.

Record AIMessage : Type := {
  ai_content : string;
  tool_calls : list ToolCall
}.

Record ToolMessage : Type := {
  content : string;
  tool_call_id : string
}.

Inductive BaseMessage : Type :=
| Human (text : string)
| AI (m : AIMessage)
| Tool (m : ToolMessage).

(** The two Pydantic models bound as tools. *)
Inductive Schema : Type :=
| AnswerQuestion
| ReviseAnswer.

Definition schema_name (s : Schema) : string :=
  match s with
  | AnswerQuestion => "AnswerQuestion"
  | ReviseAnswer => "ReviseAnswer"
  end.

(** The fields a model declares itself. *)
Definition own_fields (s : Schema) : list string :=
  match s with
  | AnswerQuestion => ["answer"; "reflection"; "search_queries"]
  | ReviseAnswer => ["references"]
  end.

(** [class ReviseAnswer(AnswerQuestion)] *)
Definition base (s : Schema) : option Schema :=
  match s with
  | AnswerQuestion => None
  | ReviseAnswer => Some AnswerQuestion
  end.

(** All fields of a model, inherited ones first.  No field has a default,
    so all of them are required. *)
Definition fields (s : Schema) : list string :=
  match base s with
  | None => own_fields s
  | Some b => (own_fields b ++ own_fields s)%list
  end.



(* ====================================================================== *)
(** ** Computations over the outside world *)
(* ====================================================================== *)

Section Agent.

(** The state of everything outside the program: the network, the search
    engine, the language model. *)
Variable World : Type.

Definition M (A : Type) : Type := World -> result A * World.

Definition ret {A} (a : A) : M A := fun w => (Ok a, w).

Definition raise {A} (e : PyExc) : M A := fun w => (Raise e, w).

Definition bind {A B} (c : M A) (k : A -> M B) : M B :=
  fun w =>
    match c w with
    | (Ok a, w') => k a w'
    | (Raise e, w') => (Raise e, w')
    end.

(** [try: c  except Exception as e: h e] *)
Definition try_except {A} (c : M A) (h : PyExc -> M A) : M A :=
  fun w =>
    match c w with
    | (Ok a, w') => (Ok a, w')
    | (Raise e, w') =>
        if isinstance_Exception e then h e w' else (Raise e, w')
    end.

Notation "x <- c ;; k" := (bind c (fun x => k))
  (at level 61, c at next level, right associativity).

(** [search_tool.run(query)] of [tools.py]: the DuckDuckGo search. *)
Variable search_tool_run : string -> M string.

(** A chain [prompt | llm.bind_tools(tools=[T], tool_choice=T)]. *)
Record Chain : Type := {
  prompt : string;
  tool : Schema
}.

Definition initial_chain : Chain :=
  {| prompt := "initial_prompt"; tool := AnswerQuestion |}.

Definition revisor_chain : Chain :=
  {| prompt := "revision_prompt"; tool := ReviseAnswer |}.

(** [chain.invoke({"messages": messages})]: the prompt's placeholder is
    filled with [messages] and the language model answers. *)
Variable chain_invoke : Chain -> list BaseMessage -> M AIMessage.

Variable cfg : Config.

(* ---------------------------------------------------------------------- *)
(** *** Node 1: [generate_initial_response] *)

(** [d[key]], where [v] is what the dict holds for [key]. *)
Definition subscript {A} (key : string) (v : option A) : M A :=
  match v with
  | Some a => ret a
  | None => raise (KeyError key)
  end.

(** The lookups of the prints that follow a response: they are made when
    [VERBOSE] is on and the response carries a tool call, on the [args] of
    the first one. *)
Definition display_info (keys_read : Args -> M unit) (response : AIMessage)
  : M unit :=
  if VERBOSE cfg then
    match tool_calls response with
    | tool_call :: _ => keys_read (args tool_call)
    | [] => ret tt
    end
  else ret tt.

Definition generate_initial_response (messages : list BaseMessage)
  : M AIMessage :=
  response <- chain_invoke initial_chain messages ;;
  _ <- display_info
         (fun a =>
            _ <- subscript "answer" (answer a) ;;
            r <- subscript "reflection" (reflection a) ;;
            _ <- subscript "missing" (missing r) ;;
            _ <- subscript "search_queries" (search_queries a) ;;
            ret tt)
         response ;;
  ret response.

(* ---------------------------------------------------------------------- *)
(** *** Node 2: [execute_tools] *)

(** [tool_call["name"] in ["AnswerQuestion", "ReviseAnswer"]] *)
Definition handled (tool_call : ToolCall) : bool :=
  existsb (String.eqb (name tool_call)) ["AnswerQuestion"; "ReviseAnswer"].

(** [tool_call["args"].get("search_queries", [])] *)
Definition get_search_queries (a : Args) : list string :=
  match search_queries a with
  | Some qs => qs
  | None => []
  end.

(** The entry stored for a query whose search raised [e]. *)
Definition unavailable (e : PyExc) : string :=
  "Search unavailable: " ++ str e.

(** The body of [for i, query in enumerate(search_queries, 1)]: one search
    inside [try ... except Exception]. *)
Definition search_one (query : string) (query_results : dict) : M dict :=
  try_except
    (result <- search_tool_run query ;;
     ret (dict_set query (slice_to (SEARCH_RESULT_LIMIT cfg) result)
            query_results))
    (fun e => ret (dict_set query (unavailable e) query_results)).

(** The inner loop over the queries, from [query_results]. *)
Fixpoint for_queries (queries : list string) (query_results : dict)
  : M dict :=
  match queries with
  | [] => ret query_results
  | query :: rest =>
      query_results' <- search_one query query_results ;;
      for_queries rest query_results'
  end.

(** The locals the outer loop leaves behind: the list being built and the
    binding of [search_queries], [None] while no assignment has run. *)
Record Locals : Type := {
  tool_messages : list ToolMessage;
  search_queries_var : option (list string)
}.

(** The outer loop [for tool_call in last_ai_message.tool_calls]. *)
Fixpoint for_tool_calls (calls : list ToolCall) (l : Locals) : M Locals :=
  match calls with
  | [] => ret l
  | tool_call :: rest =>
      if handled tool_call then
        let call_id := id tool_call in
        let queries := get_search_queries (args tool_call) in
        query_results <- for_queries queries [] ;;
        for_tool_calls rest
          {| tool_messages :=
               (tool_messages l ++
                [{| content := json_dumps query_results;
                    tool_call_id := call_id |}])%list;
             search_queries_var := Some queries |}
      else for_tool_calls rest l
  end.

(** [state[-1]] *)
Definition last_message (state : list BaseMessage) : option BaseMessage :=
  last (map Some state) None.

Definition execute_tools (state : list BaseMessage) : M (list ToolMessage) :=
  match last_message state with
  | None => raise IndexError
  | Some (AI last_ai_message) =>
      l <- for_tool_calls (tool_calls last_ai_message)
             {| tool_messages := []; search_queries_var := None |} ;;
      if VERBOSE cfg then
        (* print(f"Completed {len(search_queries)} searches") *)
        match search_queries_var l with
        | None => raise UnboundLocalError
        | Some _ => ret (tool_messages l)
        end
      else ret (tool_messages l)
  | Some (Human _) => raise (AttributeError "HumanMessage")
  | Some (Tool _) => raise (AttributeError "ToolMessage")
  end.

(* ---------------------------------------------------------------------- *)
(** *** Node 3: [revise_answer] *)

Definition revise_answer (state : list BaseMessage) : M AIMessage :=
  response <- chain_invoke revisor_chain state ;;
  _ <- display_info
         (fun a => _ <- subscript "answer" (answer a) ;; ret tt)
         response ;;
  ret response.

(* ---------------------------------------------------------------------- *)
(** *** The conditional edge: [should_continue] *)

Inductive Node : Type :=
| generate
| execute_tools_node
| revise
| END.

Definition isinstance_ToolMessage (msg : BaseMessage) : bool :=
  match msg with Tool _ => true | _ => false end.

(** [sum(isinstance(msg, ToolMessage) for msg in state)] *)
Definition tool_count (state : list BaseMessage) : Z :=
  Z.of_nat (List.length (filter isinstance_ToolMessage state)).

Definition should_continue (state : list BaseMessage) : Node :=
  if (MAX_ITERATIONS cfg <=? tool_count state)%Z then END
  else execute_tools_node.

(* ---------------------------------------------------------------------- *)
(** *** The graph ([create_reflection_agent]) *)

(** What a node adds to the state: a [MessageGraph] appends the message, or
    the messages, the node returns. *)
Definition run_node (n : Node) (state : list BaseMessage)
  : M (list BaseMessage) :=
  match n with
  | generate =>
      m <- generate_initial_response state ;; ret [AI m]
  | execute_tools_node =>
      tms <- execute_tools state ;; ret (map Tool tms)
  | revise =>
      m <- revise_answer state ;; ret [AI m]
  | END => ret []
  end.

(** The edges: two fixed ones and the conditional one after [revise]. *)
Definition next_node (n : Node) (state : list BaseMessage) : Node :=
  match n with
  | generate => execute_tools_node
  | execute_tools_node => revise
  | revise => should_continue state
  | END => END
  end.

(** Running the compiled graph from node [n].  [fuel] bounds the number of
    nodes run, as the recursion limit of the graph does, and [None] says
    it was used up.  An exception of a node ends the run. *)
Fixpoint run_from (fuel : nat) (n : Node) (state : list BaseMessage)
  (w : World) : option (result (list BaseMessage) * World) :=
  match n with
  | END => Some (Ok state, w)
  | _ =>
      match fuel with
      | O => None
      | S fuel' =>
          match run_node n state w with
          | (Raise e, w') => Some (Raise e, w')
          | (Ok out, w') =>
              let state' := (state ++ out)%list in
              run_from fuel' (next_node n state') state' w'
          end
      end
  end.

(** [agent.invoke(initial_messages)], entered at [generate]. *)
Definition invoke (fuel : nat) (initial_messages : list BaseMessage)
  : World -> option (result (list BaseMessage) * World) :=
  run_from fuel generate initial_messages.

(* ---------------------------------------------------------------------- *)
(** *** Result extraction ([main.py]) *)

(** The [args] of the first tool call of [msg] when [msg] is an AI message
    whose first tool call is named [nm]. *)
Definition first_call_named (nm : string) (msg : BaseMessage)
  : option Args :=
  match msg with
  | AI m =>
      match tool_calls m with
      | tc :: _ => if String.eqb (name tc) nm then Some (args tc) else None
      | [] => None
      end
  | _ => None
  end.

Fixpoint first_some {A B} (f : A -> option B) (l : list A) : option B :=
  match l with
  | [] => None
  | x :: rest =>
      match f x with
      | Some b => Some b
      | None => first_some f rest
      end
  end.

Definition extract_initial_answer (messages : list BaseMessage)
  : option Args :=
  first_some (first_call_named "AnswerQuestion") messages.

Definition extract_final_answer (messages : list BaseMessage)
  : option Args :=
  first_some (first_call_named "ReviseAnswer") (rev messages).

End Agent.

(* ====================================================================== *)
(** ** Notions used to state the properties *)
(* ====================================================================== *)

(** The outcomes of searching every query of a batch in turn, whatever the
    earlier outcomes were, and the world after the last search. *)
Fixpoint search_all {World : Type} (search : string -> M World string)
  (queries : list string) (w : World) : list (result string) * World :=
  match queries with
  | [] => ([], w)
  | q :: rest =>
      let (o, w1) := search q w in
      let (os, w2) := search_all search rest w1 in
      (o :: os, w2)
  end.

(** An outcome that [except Exception] absorbs, or a success. *)
Definition absorbed (o : result string) : bool :=
  match o with
  | Ok _ => true
  | Raise e => isinstance_Exception e
  end.

(** The entry an outcome leaves in the results. *)
Definition entry_of (cfg : Config) (o : result string) : string :=
  match o with
  | Ok r => slice_to (SEARCH_RESULT_LIMIT cfg) r
  | Raise e => unavailable e
  end.

(** Storing the entry of each outcome under its query, in order. *)
Fixpoint store_all (cfg : Config) (queries : list string)
  (outs : list (result string)) (d : dict) : dict :=
  match queries, outs with
  | q :: queries', o :: outs' =>
      store_all cfg queries' outs' (dict_set q (entry_of cfg o) d)
  | _, _ => d
  end.

(** The elements of [l] that are not in [seen], each at its first
    occurrence. *)
Fixpoint first_occurrences (seen l : list string) : list string :=
  match l with
  | [] => []
  | x :: rest =>
      if existsb (String.eqb x) seen then first_occurrences seen rest
      else x :: first_occurrences (x :: seen) rest
  end.

(** A ReasoningRecord: an AI message that carries an [AnswerQuestion] or a
    [ReviseAnswer] tool call. *)
Definition is_reasoning_record (msg : BaseMessage) : bool :=
  match msg with
  | AI m => existsb handled (tool_calls m)
  | _ => false
  end.

Definition last_is_reasoning_record (state : list BaseMessage) : bool :=
  match last_message state with
  | Some msg => is_reasoning_record msg
  | None => false
  end.

(** The number of tool calls of [m] that the research step handles. *)
Definition handled_calls (m : AIMessage) : nat :=
  List.length (filter handled (tool_calls m)).

(** Every AI message of a history carries exactly one handled tool call, as
    [tool_choice] asks of the language model. *)
Definition one_call_each (state : list BaseMessage) : bool :=
  forallb (fun msg => match msg with
                      | AI m => (handled_calls m =? 1)%nat
                      | _ => true
                      end) state.

(** One round as it shows in the history: the search results, then the
    revised answer. *)
Definition round (r : ToolMessage * AIMessage) : list BaseMessage :=
  [Tool (fst r); AI (snd r)].

(** The number of nodes a run visits at most when every research step adds
    a message: [generate], then [execute_tools] and [revise] per round. *)
Definition enough_fuel (cfg : Config) : nat :=
  1 + 2 * Z.to_nat (Z.max 1 (MAX_ITERATIONS cfg)).

(* ====================================================================== *)
(** ** A scripted world for concrete runs *)
(* ====================================================================== *)

(** The outcomes the search engine and the language model are going to
    give, in the order of the calls. *)
Record Script : Type := {
  searches : list (result string);
  replies : list (result AIMessage)
}.

Definition scripted_search (query : string) : M Script string :=
  fun w =>
    match searches w with
    | o :: rest => (o, {| searches := rest; replies := replies w |})
    | [] => (Ok "snippet-1", w)
    end.

Definition scripted_chain (c : Chain) (messages : list BaseMessage)
  : M Script AIMessage :=
  fun w =>
    match replies w with
    | r :: rest => (r, {| searches := searches w; replies := rest |})
    | [] => (Raise (Exception_ "BackendUnavailable" "no reply left"), w)
    end.

Definition critique : Reflection :=
  {| missing := Some "clinical trial data";
     superfluous := Some "general advice" |}.

(** An AI message with one tool call of the given name and queries. *)
Definition reply (nm call_id ans : string) (queries : list string)
  (refs : option (list string)) : AIMessage :=
  {| ai_content := "";
     tool_calls :=
       [{| name := nm; id := call_id;
           args := {| answer := Some ans; reflection := Some critique;
                      search_queries := Some queries;
                      references := refs |} |}] |}.

Definition initial_reply : AIMessage :=
  reply "AnswerQuestion" "call_0" "X is a letter." ["what is X"] None.

Definition revised_reply : AIMessage :=
  reply "ReviseAnswer" "call_1" "X is the 24th letter." ["X history"]
    (Some ["https://example.com"]).

(** An AI message without any tool call. *)
Definition plain_reply : AIMessage :=
  {| ai_content := "I do not know."; tool_calls := [] |}.

(** An AI message with two handled tool calls. *)
Definition double_reply : AIMessage :=
  {| ai_content := "";
     tool_calls := (tool_calls initial_reply ++ tool_calls revised_reply)%list |}.


Definition config_with (max_iterations : Z) (verbose : bool) : Config :=
  {| MAX_ITERATIONS := max_iterations;
     SEARCH_RESULT_LIMIT := SEARCH_RESULT_LIMIT config;
     VERBOSE := verbose |}.

Definition boom : PyExc := Exception_ "ConnectionError" "network down".

(** A string of [n] copies of the letter x. *)
Fixpoint xs (n : nat) : string :=
  match n with
  | O => EmptyString
  | S n' => String "x"%char (xs n')
  end.

(** A record with three queries, one with a repeated query. *)
Definition three_queries_reply : AIMessage :=
  reply "AnswerQuestion" "call_0" "X is a letter." ["a"; "b"; "c"] None.

Definition repeated_query_reply : AIMessage :=
  reply "AnswerQuestion" "call_0" "X is a letter." ["q"; "q"] None.

Definition one_query_reply : AIMessage :=
  reply "AnswerQuestion" "call_0" "X is a letter." ["q"] None.

Definition the_call (m : AIMessage) : ToolCall :=
  hd {| name := ""; id := "";
        args := {| answer := None; reflection := None;
                   search_queries := None; references := None |} |}
     (tool_calls m).

Definition question_X : list BaseMessage := [Human "What is X?"].

(** Worlds: what the search engine and the language model will say. *)
Definition world_answers (replies : list AIMessage) : Script :=
  {| searches := []; replies := map (@Ok AIMessage) replies |}.

Definition world_searches (outs : list (result string)) : Script :=
  {| searches := outs; replies := [] |}.

Definition found (call_id : string) (d : dict) : BaseMessage :=
  Tool {| content := json_dumps d; tool_call_id := call_id |}.

(** The histories of the runs below. *)
Definition history_one_round : list BaseMessage :=
  [Human "What is X?"; AI initial_reply;
   found "call_0" [("what is X", "snippet-1")]; AI revised_reply].

Definition history_two_rounds : list BaseMessage :=
  (history_one_round ++
   [found "call_1" [("X history", "snippet-1")]; AI revised_reply])%list.

Definition history_double : list BaseMessage :=
  [Human "What is X?"; AI double_reply;
   found "call_0" [("what is X", "snippet-1")];
   found "call_1" [("X history", "snippet-1")]; AI revised_reply].


(* ====================================================================== *)
(** ** The entry point ([main.py]) *)
(* ====================================================================== *)

Module Main.

Section RunAgent.

Variable World : Type.
Variable search_tool_run : string -> M World string.
Variable chain_invoke : Chain -> list BaseMessage -> M World AIMessage.
Variable cfg : Config.

(** [str(e)] for the [GraphRecursionError] of langgraph at a given
    recursion limit: a text of the library. *)
Variable recursion_limit_message : nat -> string.

Local Notation "x <- c ;; k" := (bind c (fun x => k))
  (at level 61, c at next level, right associativity).

(** What the graph raises when its recursion limit is reached before END;
    the class derives from [RecursionError], so from [Exception]. *)
Definition GraphRecursionError (limit : nat) : PyExc :=
  Exception_ "GraphRecursionError" (recursion_limit_message limit).

(** The world in which a run of the graph stops: at END, where a node
    raises, or where the budget of nodes is used up. *)
Fixpoint world_reached (fuel : nat) (n : Node) (state : list BaseMessage)
  (w : World) : World :=
  match n with
  | END => w
  | _ =>
      match fuel with
      | O => w
      | S fuel' =>
          match run_node search_tool_run chain_invoke cfg n state w with
          | (Raise e, w') => w'
          | (Ok out, w') =>
              let state' := (state ++ out)%list in
              world_reached fuel' (next_node cfg n state') state' w'
          end
      end
  end.

(** What [run_agent] returns: the dict of a run that ended, or the dict of
    the [except] branch. *)
Inductive Report : Type :=
| Answers (question : string) (initial_answer final_answer : option Args)
    (message_count : nat)
| Error (question error : string).

(** The truth value of [initial] and of [final]: [None] and the empty dict
    are false. *)
Definition truthy (a : option Args) : bool :=
  match a with
  | Some a =>
      match answer a, reflection a, search_queries a, references a with
      | None, None, None, None => false
      | _, _, _, _ => true
      end
  | None => false
  end.

(** The lookups of [display_initial_answer], in the order of its prints;
    [initial['reflection']] is looked up by each of the two prints of the
    self-critique. *)
Definition display_initial_answer (initial : Args) : M World unit :=
  _ <- subscript "answer" (answer initial) ;;
  r <- subscript "reflection" (reflection initial) ;;
  _ <- subscript "missing" (missing r) ;;
  r' <- subscript "reflection" (reflection initial) ;;
  _ <- subscript "superfluous" (superfluous r') ;;
  _ <- subscript "search_queries" (search_queries initial) ;;
  ret tt.

(** The lookups of [display_final_answer]: [revised["answer"]], and
    [revised.get("references")], which cannot fail. *)
Definition display_final_answer (revised : Args) : M World unit :=
  _ <- subscript "answer" (answer revised) ;;
  ret tt.

(** The [try] block after [agent.invoke] has returned [result_messages]. *)
Definition show_results (question : string)
  (result_messages : list BaseMessage) : M World Report :=
  let initial := extract_initial_answer result_messages in
  let final := extract_final_answer result_messages in
  _ <- match initial with
       | Some i => if truthy initial then display_initial_answer i else ret tt
       | None => ret tt
       end ;;
  _ <- match final with
       | Some f => if truthy final then display_final_answer f else ret tt
       | None => ret tt
       end ;;
  ret (Answers question initial final (List.length result_messages)).

(** The [except Exception as e] branch. *)
Definition on_error (question : string) (e : PyExc) : M World Report :=
  ret (Error question (str e)).

(** [run_agent(question)].  [fuel] is the recursion limit of the graph;
    when the graph uses it up, [agent.invoke] raises [GraphRecursionError]
    inside the [try], so [run_agent] always returns. *)
Definition run_agent (fuel : nat) (question : string) (w : World)
  : option (result Report * World) :=
  let initial_messages := [Human question] in
  match invoke search_tool_run chain_invoke cfg fuel initial_messages w with
  | None =>
      Some (try_except (raise (GraphRecursionError fuel))
              (on_error question)
              (world_reached fuel generate initial_messages w))
  | Some (Ok result_messages, w1) =>
      Some (try_except (show_results question result_messages)
              (on_error question) w1)
  | Some (Raise e, w1) =>
      Some (try_except (raise e) (on_error question) w1)
  end.

End RunAgent.

End Main.

(* ====================================================================== *)
(** ** More notions and worlds *)
(* ====================================================================== *)

(** What one round adds to the history: the ToolMessages of the research
    step, then the revised answer. *)
Definition group (r : list ToolMessage * AIMessage) : list BaseMessage :=
  (map Tool (fst r) ++ [AI (snd r)])%list.

(** Every ToolMessage of a round answers a handled call of the AI message
    before the round, in the order of the calls. *)
Fixpoint well_linked (previous : AIMessage)
  (rounds : list (list ToolMessage * AIMessage)) : Prop :=
  match rounds with
  | [] => True
  | r :: rest =>
      map tool_call_id (fst r)
      = map id (filter handled (tool_calls previous)) /\
      well_linked (snd r) rest
  end.

Definition isinstance_HumanMessage (msg : BaseMessage) : bool :=
  match msg with Human _ => true | _ => false end.

(** The first key that the prints of [generate_initial_response] do not
    find in [a], in the order of the prints: [answer], [reflection] and
    its [missing], [search_queries]. *)
Definition first_key_not_printed (a : Args) : option string :=
  match answer a with
  | None => Some "answer"
  | Some _ =>
      match reflection a with
      | None => Some "reflection"
      | Some r =>
          match missing r with
          | None => Some "missing"
          | Some _ =>
              match search_queries a with
              | None => Some "search_queries"
              | Some _ => None
              end
          end
      end
  end.

(** The first key that [display_initial_answer] does not find in [a]:
    as above, with the [superfluous] of [reflection] after its
    [missing]. *)
Definition first_key_not_shown (a : Args) : option string :=
  match answer a with
  | None => Some "answer"
  | Some _ =>
      match reflection a with
      | None => Some "reflection"
      | Some r =>
          match missing r with
          | None => Some "missing"
          | Some _ =>
              match superfluous r with
              | None => Some "superfluous"
              | Some _ =>
                  match search_queries a with
                  | None => Some "search_queries"
                  | Some _ => None
                  end
              end
          end
      end
  end.

(** The keys the prints of [generate_initial_response] read are there. *)
Definition complete (a : Args) : bool :=
  match first_key_not_printed a with
  | None => true
  | Some _ => false
  end.

Definition has_answer (a : Args) : bool :=
  match answer a with Some _ => true | None => false end.

(** Whether the first tool call of a response, when there is one, passes
    [ok]. *)
Definition first_call_ok (ok : Args -> bool) (m : AIMessage) : bool :=
  match tool_calls m with
  | tc :: _ => ok (args tc)
  | [] => true
  end.

(** A response as [tool_choice] asks for it: one handled tool call, and the
    keys of the model in the first call. *)
Definition well_formed (m : AIMessage) : bool :=
  (handled_calls m =? 1)%nat && first_call_ok complete m.

(** A response that obeys the [tool_choice] of its chain: well formed, and
    its first tool call bears the name of the tool of the chain. *)
Definition obeys (c : Chain) (m : AIMessage) : bool :=
  well_formed m &&
  match first_call_named (schema_name (tool c)) (AI m) with
  | Some _ => true
  | None => false
  end.

(** The keys [display_initial_answer] reads are there. *)
Definition shown (a : Args) : bool :=
  match first_key_not_shown a with
  | None => true
  | Some _ => false
  end.

(** A response that obeys its chain and whose first tool call has every
    key that the display reads. *)
Definition conforms (c : Chain) (m : AIMessage) : bool :=
  obeys c m && first_call_ok shown m.

(** A search engine that is down, and a language model that always gives
    the same answers; the world has no state. *)
Definition search_down (query : string) : M unit string :=
  fun w => (Raise boom, w).

Definition steady_chain (c : Chain) (messages : list BaseMessage)
  : M unit AIMessage :=
  fun w =>
    (Ok match tool c with
        | AnswerQuestion => initial_reply
        | ReviseAnswer => revised_reply
        end, w).

(** A first answer without the [answer] key, and one with a call that the
    research step does not handle before the handled one. *)
Definition answerless_reply : AIMessage :=
  {| ai_content := "";
     tool_calls :=
       [{| name := "AnswerQuestion"; id := "call_0";
           args := {| answer := None; reflection := Some critique;
                      search_queries := Some ["what is X"];
                      references := None |} |}] |}.

Definition mixed_reply : AIMessage :=
  {| ai_content := "";
     tool_calls :=
       ({| name := "Calculator"; id := "call_9";
           args := {| answer := None; reflection := None;
                      search_queries := None; references := None |} |}
        :: tool_calls double_reply)%list |}.

Definition queryless_reply : AIMessage :=
  {| ai_content := "";
     tool_calls :=
       [{| name := "AnswerQuestion"; id := "call_0";
           args := {| answer := Some "X is a letter.";
                      reflection := Some critique;
                      search_queries := None;
                      references := None |} |}] |}.

(** A first answer whose [reflection] is the empty dict. *)
Definition hollow_reply : AIMessage :=
  {| ai_content := "";
     tool_calls :=
       [{| name := "AnswerQuestion"; id := "call_0";
           args := {| answer := Some "X is a letter.";
                      reflection := Some {| missing := None;
                                            superfluous := None |};
                      search_queries := Some ["what is X"];
                      references := None |} |}] |}.

Definition interrupt : PyExc := BaseException_ "KeyboardInterrupt" "".

(** A text for the error of the recursion limit in the concrete runs. *)
Definition limit_text (limit : nat) : string := "Recursion limit reached".

(** The agent and its research step in a scripted world, on the question
    "What is X?". *)
Local Abbreviation run_agent cfg fuel w :=
  (invoke scripted_search scripted_chain cfg fuel question_X w).

Local Abbreviation research cfg m w :=
  (execute_tools scripted_search cfg (question_X ++ [AI m]) w).

(** Both sides are the same list up to the grouping of [++]. *)
Ltac same_list :=
  cbn [flat_map firstn]; unfold group; cbn [fst snd];
  rewrite ?app_nil_r;
  repeat (progress (rewrite <- ?app_assoc; cbn [app]));
  reflexivity.

(** No later query of a short concrete batch is the one at hand. *)
Ltac no_later_occurrence :=
  let j := fresh "j" in
  intros j ?;
  do 4 (destruct j as [|j]; [try lia; try (cbn; discriminate)|]);
  cbn; discriminate.

(* ====================================================================== *)
(** ** Strings and dicts *)
(* ====================================================================== *)

Lemma length_app_str (a b : string) :
  String.length (a ++ b) = String.length a + String.length b.
Proof.
  induction a as [|c a IH]; simpl; [reflexivity | now rewrite IH].
Qed.

Lemma take_str_length (n : nat) (s : string) :
  String.length (take_str n s) = Nat.min n (String.length s).
Proof.
  revert s; induction n as [|n IH]; intros [|c s]; simpl; auto.
Qed.

Lemma take_str_prefix (n : nat) (s : string) :
  exists rest, s = take_str n s ++ rest.
Proof.
  revert s; induction n as [|n IH]; intros s.
  - exists s. destruct s; reflexivity.
  - destruct s as [|c s].
    + exists EmptyString. reflexivity.
    + destruct (IH s) as [rest E]. exists rest. simpl. now rewrite <- E.
Qed.

Lemma slice_to_length (stop : Z) (s : string) :
  (0 <= stop)%Z ->
  Z.of_nat (String.length (slice_to stop s))
  = Z.min stop (Z.of_nat (String.length s)).
Proof.
  intros H. unfold slice_to.
  destruct (Z.leb_spec 0 stop); [|lia].
  rewrite take_str_length. lia.
Qed.

Lemma slice_to_prefix (stop : Z) (s : string) :
  exists rest, s = slice_to stop s ++ rest.
Proof.
  unfold slice_to. destruct (0 <=? stop)%Z; apply take_str_prefix.
Qed.

Lemma unavailable_length (e : PyExc) :
  String.length (unavailable e) = 20 + String.length (str e).
Proof. unfold unavailable. now rewrite length_app_str. Qed.

Lemma existsb_eqb_In (x : string) (l : list string) :
  existsb (String.eqb x) l = true <-> In x l.
Proof.
  rewrite existsb_exists. split.
  - intros [y [Hy E]]. apply String.eqb_eq in E. now subst.
  - intros H. exists x. split; [assumption | apply String.eqb_refl].
Qed.

Lemma existsb_eqb_notIn (x : string) (l : list string) :
  existsb (String.eqb x) l = false <-> ~ In x l.
Proof.
  rewrite <- existsb_eqb_In. destruct (existsb _ l); intuition congruence.
Qed.

Lemma keys_dict_set (k v : string) (d : dict) :
  keys (dict_set k v d)
  = if existsb (String.eqb k) (keys d) then keys d else (keys d ++ [k])%list.
Proof.
  induction d as [|[k' v'] d IH]; simpl; [reflexivity|].
  rewrite (String.eqb_sym k k').
  destruct (String.eqb k' k); simpl; [reflexivity|].
  fold (keys d). fold (keys (dict_set k v d)). rewrite IH.
  destruct (existsb _ (keys d)); reflexivity.
Qed.

Lemma dict_get_set_same (k v : string) (d : dict) :
  dict_get k (dict_set k v d) = Some v.
Proof.
  induction d as [|[k' v'] d IH]; simpl.
  - now rewrite String.eqb_refl.
  - destruct (String.eqb k' k) eqn:E; simpl; rewrite E; auto.
Qed.

Lemma dict_get_set_other (k k' v : string) (d : dict) :
  k <> k' -> dict_get k (dict_set k' v d) = dict_get k d.
Proof.
  intros N. induction d as [|[k2 v2] d IH]; simpl.
  - apply String.eqb_neq in N. rewrite String.eqb_sym in N. now rewrite N.
  - destruct (String.eqb k2 k') eqn:E; simpl.
    + apply String.eqb_eq in E; subst k2.
      assert (String.eqb k' k = false) as ->
        by (apply String.eqb_neq; congruence).
      reflexivity.
    + now rewrite IH.
Qed.

Lemma In_dict_set (k v k' v' : string) (d : dict) :
  In (k', v') (dict_set k v d) -> In (k', v') d \/ (k' = k /\ v' = v).
Proof.
  induction d as [|[k2 v2] d IH]; simpl.
  - intros [E|[]]. inversion E. auto.
  - destruct (String.eqb k2 k) eqn:E; simpl.
    + apply String.eqb_eq in E; subst k2.
      intros [H|H]; [inversion H; auto | auto].
    + intros [H|H]; [auto|]. destruct (IH H) as [?|?]; auto.
Qed.

Lemma first_occurrences_ext (s1 s2 l : list string) :
  (forall x, In x s1 <-> In x s2) ->
  first_occurrences s1 l = first_occurrences s2 l.
Proof.
  revert s1 s2; induction l as [|x l IH]; intros s1 s2 H; simpl; [reflexivity|].
  destruct (existsb (String.eqb x) s1) eqn:E1.
  - apply existsb_eqb_In in E1. apply H in E1.
    apply existsb_eqb_In in E1. rewrite E1. now apply IH.
  - apply existsb_eqb_notIn in E1.
    assert (existsb (String.eqb x) s2 = false) as ->
      by (apply existsb_eqb_notIn; rewrite <- H; assumption).
    f_equal. apply IH. intros y; simpl. rewrite H. reflexivity.
Qed.

Lemma first_occurrences_length (seen l : list string) :
  List.length (first_occurrences seen l) <= List.length l.
Proof.
  revert seen; induction l as [|x l IH]; intros seen; simpl; [lia|].
  destruct (existsb _ seen); simpl.
  - specialize (IH seen). lia.
  - specialize (IH (x :: seen)). lia.
Qed.

Lemma first_occurrences_NoDup (seen l : list string) :
  NoDup l -> (forall x, In x l -> ~ In x seen) ->
  first_occurrences seen l = l.
Proof.
  revert seen; induction l as [|x l IH]; intros seen ND H; simpl; [reflexivity|].
  inversion ND as [|? ? Hx ND']; subst.
  assert (existsb (String.eqb x) seen = false) as ->
    by (apply existsb_eqb_notIn; apply H; simpl; auto).
  f_equal. apply IH; [assumption|].
  intros y Hy [E|Hs]; [subst; contradiction|].
  apply (H y); simpl; auto.
Qed.

Lemma first_occurrences_In (seen l : list string) (x : string) :
  In x (first_occurrences seen l) <-> In x l /\ ~ In x seen.
Proof.
  revert seen; induction l as [|y l IH]; intros seen; simpl; [tauto|].
  destruct (existsb (String.eqb y) seen) eqn:E.
  - apply existsb_eqb_In in E. rewrite IH. split.
    + tauto.
    + intros [[->|H] N]; [contradiction | tauto].
  - apply existsb_eqb_notIn in E. simpl. rewrite IH. simpl. split.
    + intros [->|[H N]]; [tauto|]. split; [tauto|]. intros Hs; apply N; auto.
    + intros [[->|H] N]; [tauto|].
      destruct (String.eqb_spec y x) as [->|Nyx]; [tauto|].
      right. split; [assumption|]. intros [?|?]; congruence.
Qed.

Lemma first_occurrences_NoDup_out (seen l : list string) :
  NoDup (first_occurrences seen l).
Proof.
  revert seen; induction l as [|y l IH]; intros seen; simpl; [constructor|].
  destruct (existsb (String.eqb y) seen); [apply IH|].
  constructor; [|apply IH].
  rewrite first_occurrences_In. simpl. tauto.
Qed.

Lemma store_all_keys (cfg : Config) (queries : list string) :
  forall (outs : list (result string)) (d : dict),
    List.length outs = List.length queries ->
    keys (store_all cfg queries outs d)
    = (keys d ++ first_occurrences (keys d) queries)%list.
Proof.
  induction queries as [|q queries IH]; intros outs d L; simpl.
  - now rewrite app_nil_r.
  - destruct outs as [|o outs]; [discriminate|]. simpl in L.
    rewrite IH by lia. rewrite keys_dict_set.
    destruct (existsb (String.eqb q) (keys d)) eqn:E; [reflexivity|].
    rewrite <- app_assoc. simpl. do 2 f_equal.
    apply first_occurrences_ext. intros x. rewrite in_app_iff. simpl. tauto.
Qed.

Lemma store_all_absent (cfg : Config) (q : string) (queries : list string) :
  forall (outs : list (result string)) (d : dict),
    ~ In q queries ->
    dict_get q (store_all cfg queries outs d) = dict_get q d.
Proof.
  induction queries as [|q' queries IH]; intros outs d N; simpl; [reflexivity|].
  destruct outs as [|o outs]; [reflexivity|].
  rewrite IH by (simpl in N; tauto).
  apply dict_get_set_other. simpl in N. intros ->. tauto.
Qed.

(** The entry of a query is the one of its last occurrence. *)
Lemma store_all_last (cfg : Config) (queries : list string) :
  forall (outs : list (result string)) (d : dict) (i : nat) (q : string)
         (o : result string),
    nth_error queries i = Some q ->
    nth_error outs i = Some o ->
    (forall j, i < j -> nth_error queries j <> Some q) ->
    dict_get q (store_all cfg queries outs d) = Some (entry_of cfg o).
Proof.
  induction queries as [|q' queries IH]; intros outs d i q o Hq Ho Hlast.
  - destruct i; discriminate.
  - destruct outs as [|o' outs]; [destruct i; discriminate|].
    destruct i as [|i]; simpl in *.
    + inversion Hq; inversion Ho; subst.
      rewrite store_all_absent.
      * apply dict_get_set_same.
      * intros Hin. apply In_nth_error in Hin as [j Hj].
        apply (Hlast (S j)); [lia | exact Hj].
    + apply IH with (i := i); try assumption.
      intros j Hj. apply (Hlast (S j)). lia.
Qed.

(** Every entry comes from a search of its query. *)
Lemma store_all_In (cfg : Config) (queries : list string) :
  forall (outs : list (result string)) (d : dict) (q v : string),
    In (q, v) (store_all cfg queries outs d) ->
    In (q, v) d \/
    exists i o, nth_error queries i = Some q /\ nth_error outs i = Some o /\
                v = entry_of cfg o.
Proof.
  induction queries as [|q' queries IH]; intros outs d q v H; simpl in H; auto.
  destruct outs as [|o' outs]; auto.
  apply IH in H as [H|[i [o [Hq [Ho Hv]]]]].
  - apply In_dict_set in H as [H|[-> ->]]; auto.
    right. exists 0, o'. auto.
  - right. exists (S i), o. auto.
Qed.

(* ====================================================================== *)
(** ** The research step *)
(* ====================================================================== *)

Section Research.

Variable World : Type.
Variable search : string -> M World string.
Variable cfg : Config.

Lemma search_all_length (queries : list string) :
  forall w, List.length (fst (search_all search queries w)) = List.length queries.
Proof.
  induction queries as [|q queries IH]; intros w; simpl; [reflexivity|].
  destruct (search q w) as [o w1].
  specialize (IH w1). destruct (search_all search queries w1) as [os w2].
  simpl in *. now rewrite IH.
Qed.

Lemma search_one_absorbed (q : string) (d : dict) (w : World) :
  absorbed (fst (search q w)) = true ->
  search_one search cfg q d w
  = (Ok (dict_set q (entry_of cfg (fst (search q w))) d), snd (search q w)).
Proof.
  unfold search_one, try_except, bind, ret.
  destruct (search q w) as [[r|e] w1]; simpl; [reflexivity|].
  now intros ->.
Qed.

Lemma search_one_escapes (q : string) (d : dict) (w : World) :
  absorbed (fst (search q w)) = false ->
  exists e, fst (search q w) = Raise e /\ isinstance_Exception e = false /\
            search_one search cfg q d w = (Raise e, snd (search q w)).
Proof.
  unfold search_one, try_except, bind, ret.
  destruct (search q w) as [[r|e] w1]; simpl; [discriminate|].
  intros E. exists e. now rewrite E.
Qed.

(** When every failure is one that [except Exception] absorbs, the loop
    stores one entry per search and ends in the world after the last
    search. *)
Lemma for_queries_absorbed (queries : list string) :
  forall d w,
    forallb absorbed (fst (search_all search queries w)) = true ->
    for_queries search cfg queries d w
    = (Ok (store_all cfg queries (fst (search_all search queries w)) d),
       snd (search_all search queries w)).
Proof.
  induction queries as [|q queries IH]; intros d w H; simpl in *; [reflexivity|].
  unfold bind.
  destruct (search q w) as [o w1] eqn:Es.
  destruct (search_all search queries w1) as [os w2] eqn:Ea.
  simpl in H. apply andb_prop in H as [Ho Hos].
  rewrite search_one_absorbed by (rewrite Es; exact Ho).
  rewrite Es; simpl.
  specialize (IH (dict_set q (entry_of cfg o) d) w1).
  rewrite Ea in IH. simpl in IH. now apply IH.
Qed.

(** A loop that ends normally has absorbed every failure. *)
Lemma for_queries_Ok (queries : list string) :
  forall d w d' w',
    for_queries search cfg queries d w = (Ok d', w') ->
    forallb absorbed (fst (search_all search queries w)) = true.
Proof.
  induction queries as [|q queries IH]; intros d w d' w' H; simpl in *;
    [reflexivity|].
  unfold bind in H.
  destruct (absorbed (fst (search q w))) eqn:Ho.
  - rewrite search_one_absorbed in H by exact Ho.
    destruct (search q w) as [o w1]; simpl in *.
    apply IH in H.
    destruct (search_all search queries w1) as [os w2]; simpl in *.
    now rewrite Ho, H.
  - destruct (search_one_escapes q d w Ho) as [e [_ [_ E]]].
    rewrite E in H. discriminate.
Qed.

(** Only what [except Exception] lets through leaves the loop. *)
Lemma for_queries_Raise (queries : list string) :
  forall d w e w',
    for_queries search cfg queries d w = (Raise e, w') ->
    isinstance_Exception e = false.
Proof.
  induction queries as [|q queries IH]; intros d w e w' H; simpl in *.
  - discriminate.
  - unfold bind in H.
    destruct (absorbed (fst (search q w))) eqn:Ho.
    + rewrite search_one_absorbed in H by exact Ho. eapply IH; eassumption.
    + destruct (search_one_escapes q d w Ho) as [e' [_ [Hi E]]].
      rewrite E in H. inversion H; subst. exact Hi.
Qed.

Lemma for_tool_calls_unhandled (calls : list ToolCall) (l : Locals) (w : World) :
  existsb handled calls = false ->
  for_tool_calls search cfg calls l w = (Ok l, w).
Proof.
  induction calls as [|tc calls IH]; simpl; [reflexivity|].
  intros H. apply orb_false_elim in H as [H1 H2].
  rewrite H1. now apply IH.
Qed.

(** One ToolMessage per handled call; [search_queries] is bound as soon as
    one call is handled. *)
Lemma for_tool_calls_Ok (calls : list ToolCall) :
  forall l w l' w',
    for_tool_calls search cfg calls l w = (Ok l', w') ->
    List.length (tool_messages l')
    = List.length (tool_messages l) + List.length (filter handled calls) /\
    (search_queries_var l' = None <->
     search_queries_var l = None /\ filter handled calls = []).
Proof.
  induction calls as [|tc calls IH]; intros l w l' w' H; simpl in *.
  - inversion H; subst. split; [lia | tauto].
  - destruct (handled tc) eqn:Hh.
    + unfold bind in H.
      destruct (for_queries search cfg _ [] w) as [[d|e] w1]; [|discriminate].
      apply IH in H as [H1 H2]. simpl in *.
      rewrite length_app in H1. simpl in H1. split; [lia|].
      rewrite H2. split; intros [? ?]; discriminate.
    + now apply IH in H.
Qed.

Lemma for_tool_calls_Raise (calls : list ToolCall) :
  forall l w e w',
    for_tool_calls search cfg calls l w = (Raise e, w') ->
    isinstance_Exception e = false.
Proof.
  induction calls as [|tc calls IH]; intros l w e w' H; simpl in *.
  - discriminate.
  - destruct (handled tc).
    + unfold bind in H.
      destruct (for_queries search cfg _ [] w) as [[d|e'] w1] eqn:E.
      * eapply IH; eassumption.
      * inversion H; subst. eapply for_queries_Raise; eassumption.
    + eapply IH; eassumption.
Qed.

Lemma last_message_app (h : list BaseMessage) (x : BaseMessage) :
  last_message (h ++ [x]) = Some x.
Proof.
  unfold last_message. rewrite map_app. simpl. apply last_last.
Qed.

Lemma last_message_Some (state : list BaseMessage) (x : BaseMessage) :
  last_message state = Some x -> exists h, state = (h ++ [x])%list.
Proof.
  destruct state as [|y state] using rev_ind.
  - discriminate.
  - rewrite last_message_app. intros E; inversion E; subst. now exists state.
Qed.

(** A research step that returns has read an AI message at the end of the
    history and gives one ToolMessage per handled call. *)
Lemma execute_tools_Ok (state : list BaseMessage) (w : World)
  (tms : list ToolMessage) (w' : World) :
  execute_tools search cfg state w = (Ok tms, w') ->
  exists h m, state = (h ++ [AI m])%list /\
              List.length tms = handled_calls m /\
              (VERBOSE cfg = true -> 1 <= handled_calls m).
Proof.
  unfold execute_tools.
  destruct (last_message state) as [[t|m|t]|] eqn:EL; try discriminate.
  apply last_message_Some in EL as [h ->].
  unfold bind.
  destruct (for_tool_calls search cfg (tool_calls m) _ w) as [[l|e] w1] eqn:E;
    [|discriminate].
  apply for_tool_calls_Ok in E as [E1 E2]. simpl in *.
  intros H. exists h, m. split; [reflexivity|].
  unfold handled_calls.
  destruct (VERBOSE cfg).
  - destruct (search_queries_var l) as [qs|] eqn:Eq; [|discriminate].
    inversion H; subst. split; [assumption|]. intros _.
    destruct (filter handled (tool_calls m)) eqn:Ef; simpl; [|lia].
    assert (Some qs = None) as N by (apply E2; auto). discriminate.
  - inversion H; subst. split; [assumption | discriminate].
Qed.

(** The research step on a record with one handled call whose search
    failures are all absorbed. *)
Lemma execute_tools_one_call (h : list BaseMessage) (m : AIMessage)
  (tc : ToolCall) (w : World) :
  tool_calls m = [tc] -> handled tc = true ->
  forallb absorbed
    (fst (search_all search (get_search_queries (args tc)) w)) = true ->
  execute_tools search cfg (h ++ [AI m]) w
  = (Ok [{| content :=
              json_dumps
                (store_all cfg (get_search_queries (args tc))
                   (fst (search_all search (get_search_queries (args tc)) w))
                   []);
            tool_call_id := id tc |}],
     snd (search_all search (get_search_queries (args tc)) w)).
Proof.
  intros Hm Hh Ha. unfold execute_tools.
  rewrite last_message_app, Hm. simpl. rewrite Hh. unfold bind.
  rewrite for_queries_absorbed by exact Ha. simpl.
  destruct (VERBOSE cfg); reflexivity.
Qed.

(** The tool calls that are not handled are passed over. *)
Lemma for_tool_calls_filter (calls : list ToolCall) :
  forall l w,
    for_tool_calls search cfg calls l w
    = for_tool_calls search cfg (filter handled calls) l w.
Proof.
  induction calls as [|tc calls IH]; intros l w; simpl; [reflexivity|].
  destruct (handled tc) eqn:Hh; [|apply IH].
  simpl. rewrite Hh. unfold bind.
  destruct (for_queries search cfg _ [] w) as [[d|e] w1];
    [apply IH | reflexivity].
Qed.

(** The research step on a record of which one tool call is handled, when
    the failures of its searches are all absorbed. *)
Lemma execute_tools_one_handled (h : list BaseMessage) (m : AIMessage)
  (tc : ToolCall) (w : World) :
  filter handled (tool_calls m) = [tc] ->
  forallb absorbed
    (fst (search_all search (get_search_queries (args tc)) w)) = true ->
  execute_tools search cfg (h ++ [AI m]) w
  = (Ok [{| content :=
              json_dumps
                (store_all cfg (get_search_queries (args tc))
                   (fst (search_all search (get_search_queries (args tc)) w))
                   []);
            tool_call_id := id tc |}],
     snd (search_all search (get_search_queries (args tc)) w)).
Proof.
  intros Hm Ha.
  assert (Hh : handled tc = true).
  { assert (In tc (filter handled (tool_calls m)))
      by (rewrite Hm; simpl; auto).
    now apply filter_In in H. }
  unfold execute_tools. rewrite last_message_app. unfold bind.
  rewrite for_tool_calls_filter, Hm. simpl. rewrite Hh. unfold bind.
  rewrite for_queries_absorbed by exact Ha. simpl.
  destruct (VERBOSE cfg); reflexivity.
Qed.

(** Without a handled call no search runs and [search_queries] stays
    unbound. *)
Lemma execute_tools_no_call (h : list BaseMessage) (m : AIMessage) (w : World) :
  existsb handled (tool_calls m) = false ->
  execute_tools search cfg (h ++ [AI m]) w
  = if VERBOSE cfg then (Raise UnboundLocalError, w) else (Ok [], w).
Proof.
  intros H. unfold execute_tools. rewrite last_message_app. unfold bind.
  rewrite for_tool_calls_unhandled by exact H. simpl.
  destruct (VERBOSE cfg); reflexivity.
Qed.

(* ---------------------------------------------------------------------- *)
(** *** The entries of the results *)

(** C3 (as the code has it).  For a record of which one tool call is
    handled and whose search failures are all absorbed, the research step
    returns one ToolMessage whose results have the queries as keys, each
    once, in the order of their first occurrence: when no query is
    repeated the keys are the queries in their order, an empty list of
    queries gives empty results, and a repeated query has a single entry,
    the one its last search left. *)
Theorem C3_results_keys (h : list BaseMessage) (m : AIMessage)
  (tc : ToolCall) (w : World) :
  filter handled (tool_calls m) = [tc] ->
  forallb absorbed
    (fst (search_all search (get_search_queries (args tc)) w)) = true ->
  exists (d : dict) (w' : World),
    execute_tools search cfg (h ++ [AI m]) w
    = (Ok [{| content := json_dumps d; tool_call_id := id tc |}], w') /\
    keys d = first_occurrences [] (get_search_queries (args tc)) /\
    (NoDup (get_search_queries (args tc)) ->
     keys d = get_search_queries (args tc)) /\
    NoDup (keys d) /\
    List.length d <= List.length (get_search_queries (args tc)) /\
    (get_search_queries (args tc) = [] -> d = []) /\
    (forall i q o,
       nth_error (get_search_queries (args tc)) i = Some q ->
       nth_error (fst (search_all search (get_search_queries (args tc)) w)) i
       = Some o ->
       (forall j, i < j ->
                  nth_error (get_search_queries (args tc)) j <> Some q) ->
       dict_get q d = Some (entry_of cfg o)).
Proof.
  intros Hm Ha.
  eexists; eexists. split; [apply execute_tools_one_handled; eassumption|].
  set (queries := get_search_queries (args tc)) in *.
  assert (K : keys (store_all cfg queries (fst (search_all search queries w)) [])
              = first_occurrences [] queries)
    by (rewrite store_all_keys by apply search_all_length; reflexivity).
  split; [exact K|]. split; [|split; [|split; [|split]]].
  - intros ND. rewrite K. apply first_occurrences_NoDup; auto.
  - rewrite K. apply first_occurrences_NoDup_out.
  - rewrite <- (length_map fst). fold (keys (store_all cfg queries
      (fst (search_all search queries w)) [])).
    rewrite K. apply first_occurrences_length.
  - intros ->. reflexivity.
  - intros i q o Hq Ho Hlast. exact (store_all_last cfg _ _ [] Hq Ho Hlast).
Qed.

(** C4 (as the code has it).  A search that fails with an exception is
    absorbed inside the research step.  For a record of which one tool
    call is handled: the step returns its ToolMessage, in the world
    reached after searching every query of the batch; the entry of a
    query is the one its last search in the batch left, the marker with
    the cause for a failure and the snippet for a success, so that a
    failed query has the marker unless it is searched again later.
    And whatever the record, an exception that leaves the step is never
    one that [except Exception] absorbs, unless it is the step's own
    lookup of the last message or of [search_queries]. *)
Theorem C4_search_failures_absorbed (h : list BaseMessage) (m : AIMessage)
  (tc : ToolCall) (w : World) :
  filter handled (tool_calls m) = [tc] ->
  forallb absorbed
    (fst (search_all search (get_search_queries (args tc)) w)) = true ->
  (exists d : dict,
     execute_tools search cfg (h ++ [AI m]) w
     = (Ok [{| content := json_dumps d; tool_call_id := id tc |}],
        snd (search_all search (get_search_queries (args tc)) w)) /\
     List.length (fst (search_all search (get_search_queries (args tc)) w))
     = List.length (get_search_queries (args tc)) /\
     forall i q o,
       nth_error (get_search_queries (args tc)) i = Some q ->
       nth_error (fst (search_all search (get_search_queries (args tc)) w)) i
       = Some o ->
       (forall j, i < j ->
                  nth_error (get_search_queries (args tc)) j <> Some q) ->
       dict_get q d
       = Some match o with
              | Ok r => slice_to (SEARCH_RESULT_LIMIT cfg) r
              | Raise e => "Search unavailable: " ++ str e
              end) /\
  (forall state w0 e w',
     execute_tools search cfg state w0 = (Raise e, w') ->
     isinstance_Exception e = false \/
     e = IndexError \/ exc_class e = "AttributeError" \/
     e = UnboundLocalError).
Proof.
  intros Hm Ha. split.
  - eexists. split; [apply execute_tools_one_handled; eassumption|].
    split; [apply search_all_length|].
    intros i q o Hq Ho Hlast.
    rewrite (store_all_last cfg _ _ [] Hq Ho Hlast).
    destruct o; reflexivity.
  - intros state w0 e w'. unfold execute_tools.
    destruct (last_message state) as [[t|m'|t]|];
      try (unfold raise; intros E; inversion E; auto).
    clear E. revert H0. unfold bind.
    destruct (for_tool_calls search cfg (tool_calls m') _ w0)
      as [[l|e'] w1] eqn:E.
    + destruct (VERBOSE cfg); [destruct (search_queries_var l)|];
        unfold ret, raise; intros E'; inversion E'; auto.
    + intros E'; inversion E'; subst. left.
      eapply for_tool_calls_Raise; eassumption.
Qed.

(** C7 (as the code has it).  With the limit of [config.py], 800, the entry
    of a query whose last search in the batch succeeded is the result of
    that search cut to its first 800 characters: a prefix of the result of
    length [min 800 (len result)], so of at most 800 characters.  And
    every entry of the results is either such a cut result, of at most 800
    characters, or the marker of a failed search of its query. *)
Theorem C7_snippets_truncated (h : list BaseMessage) (m : AIMessage)
  (tc : ToolCall) (w : World) :
  SEARCH_RESULT_LIMIT cfg = 800%Z ->
  filter handled (tool_calls m) = [tc] ->
  forallb absorbed
    (fst (search_all search (get_search_queries (args tc)) w)) = true ->
  exists (d : dict) (w' : World),
    execute_tools search cfg (h ++ [AI m]) w
    = (Ok [{| content := json_dumps d; tool_call_id := id tc |}], w') /\
    (forall i q r,
      nth_error (get_search_queries (args tc)) i = Some q ->
      nth_error (fst (search_all search (get_search_queries (args tc)) w)) i
      = Some (Ok r) ->
      (forall j, i < j ->
                 nth_error (get_search_queries (args tc)) j <> Some q) ->
      dict_get q d = Some (take_str 800 r) /\
      String.length (take_str 800 r) = Nat.min 800 (String.length r) /\
      String.length (take_str 800 r) <= 800 /\
      exists rest, r = take_str 800 r ++ rest) /\
    (forall q v,
       In (q, v) d ->
       (exists i r,
          nth_error (get_search_queries (args tc)) i = Some q /\
          nth_error
            (fst (search_all search (get_search_queries (args tc)) w)) i
          = Some (Ok r) /\
          v = take_str 800 r /\ String.length v <= 800) \/
       (exists i e,
          nth_error (get_search_queries (args tc)) i = Some q /\
          nth_error
            (fst (search_all search (get_search_queries (args tc)) w)) i
          = Some (Raise e) /\
          v = "Search unavailable: " ++ str e)).
Proof.
  intros Hl Hm Ha.
  eexists; eexists. split; [apply execute_tools_one_handled; eassumption|].
  split.
  - intros i q r Hq Ho Hlast.
    rewrite (store_all_last cfg _ _ [] Hq Ho Hlast).
    unfold entry_of. rewrite Hl.
    change (slice_to 800 r) with (take_str 800 r).
    split; [reflexivity|].
    split; [apply take_str_length|].
    split; [rewrite take_str_length; apply Nat.le_min_l
           | apply take_str_prefix].
  - intros q v Hin.
    apply store_all_In in Hin as [[]|[i [[r|e] [Hq [Ho Hv]]]]].
    + left. exists i, r. split; [exact Hq|]. split; [exact Ho|].
      subst v. unfold entry_of. rewrite Hl.
      change (slice_to 800 r) with (take_str 800 r).
      split; [reflexivity|]. rewrite take_str_length. apply Nat.le_min_l.
    + right. exists i, e. auto.
Qed.

(** C10 (as the code has it).  The entry of a query whose last search in
    the batch failed with [e] is "Search unavailable: " followed by
    [str(e)], whole: its length is 20 more than that of [str(e)], so it is
    longer than SEARCH_RESULT_LIMIT as soon as [str(e)] has more than
    SEARCH_RESULT_LIMIT - 20 characters. *)
Theorem C10_error_marker_not_truncated (h : list BaseMessage)
  (m : AIMessage) (tc : ToolCall) (w : World) :
  filter handled (tool_calls m) = [tc] ->
  forallb absorbed
    (fst (search_all search (get_search_queries (args tc)) w)) = true ->
  exists (d : dict) (w' : World),
    execute_tools search cfg (h ++ [AI m]) w
    = (Ok [{| content := json_dumps d; tool_call_id := id tc |}], w') /\
    forall i q e,
      nth_error (get_search_queries (args tc)) i = Some q ->
      nth_error (fst (search_all search (get_search_queries (args tc)) w)) i
      = Some (Raise e) ->
      (forall j, i < j ->
                 nth_error (get_search_queries (args tc)) j <> Some q) ->
      dict_get q d = Some ("Search unavailable: " ++ str e) /\
      String.length ("Search unavailable: " ++ str e)
      = 20 + String.length (str e) /\
      ((SEARCH_RESULT_LIMIT cfg < 20 + Z.of_nat (String.length (str e)))%Z ->
       (SEARCH_RESULT_LIMIT cfg
        < Z.of_nat (String.length ("Search unavailable: " ++ str e)))%Z).
Proof.
  intros Hm Ha.
  eexists; eexists. split; [apply execute_tools_one_handled; eassumption|].
  intros i q e Hq Ho Hlast.
  rewrite (store_all_last cfg _ _ [] Hq Ho Hlast).
  split; [reflexivity|].
  pose proof (unavailable_length e) as L. unfold unavailable in L.
  split; [exact L|]. rewrite L. lia.
Qed.

(* ---------------------------------------------------------------------- *)
(** *** The last message of the history *)

(** C9.  When the last message is an AI message without any
    [AnswerQuestion] or [ReviseAnswer] tool call and [VERBOSE] is on, the
    research step does not return the empty list: the last print reads
    [search_queries], which no assignment has bound, and the step raises
    [UnboundLocalError], a [NameError], before any search. *)
Theorem C9_unbound_search_queries (h : list BaseMessage) (m : AIMessage)
  (w : World) :
  VERBOSE cfg = true ->
  existsb handled (tool_calls m) = false ->
  execute_tools search cfg (h ++ [AI m]) w = (Raise UnboundLocalError, w) /\
  is_NameError UnboundLocalError = true /\
  execute_tools search cfg (h ++ [AI m]) w <> (Ok [], w).
Proof.
  intros Hv Hn. rewrite execute_tools_no_call by exact Hn. rewrite Hv.
  split; [reflexivity|]. split; [reflexivity | discriminate].
Qed.

(** C5 (as the code has it).  The research step reads the last message of
    the history and has no check of its own for a ReasoningRecord.  When
    the last message is not one, no search runs and the step never fails
    with [ProtocolViolation]; and with [VERBOSE] off, an AI message
    without a handled tool call gives the empty list of ToolMessages. *)
Theorem C5_no_protocol_violation (state : list BaseMessage) (w : World) :
  last_is_reasoning_record state = false ->
  (forall e w', execute_tools search cfg state w = (Raise e, w') ->
                is_ProtocolViolation e = false /\ w' = w) /\
  (forall tms w', execute_tools search cfg state w = (Ok tms, w') ->
                  tms = [] /\ w' = w) /\
  (VERBOSE cfg = false ->
   forall m, last_message state = Some (AI m) ->
             execute_tools search cfg state w = (Ok [], w)).
Proof.
  unfold last_is_reasoning_record. intros H.
  destruct (last_message state) as [[t|m|t]|] eqn:EL.
  - unfold execute_tools; rewrite EL; unfold raise.
    repeat split; intros; try discriminate;
      match goal with E : (_, _) = (_, _) |- _ => now inversion E end.
  - simpl in H. apply last_message_Some in EL as [h ->].
    rewrite execute_tools_no_call by exact H.
    repeat split; intros; destruct (VERBOSE cfg); try discriminate;
      try reflexivity;
      match goal with E : (_, _) = (_, _) |- _ => now inversion E end.
  - unfold execute_tools; rewrite EL; unfold raise.
    repeat split; intros; try discriminate;
      match goal with E : (_, _) = (_, _) |- _ => now inversion E end.
  - unfold execute_tools; rewrite EL; unfold raise.
    repeat split; intros; try discriminate;
      match goal with E : (_, _) = (_, _) |- _ => now inversion E end.
Qed.

End Research.

(* ====================================================================== *)
(** ** The loop *)
(* ====================================================================== *)

Section Loop.

Variable World : Type.
Variable search : string -> M World string.
Variable chain : Chain -> list BaseMessage -> M World AIMessage.
Variable cfg : Config.

Local Abbreviation run := (run_from search chain cfg).

Lemma tool_count_app (a b : list BaseMessage) :
  tool_count (a ++ b) = (tool_count a + tool_count b)%Z.
Proof.
  unfold tool_count. rewrite filter_app, length_app. lia.
Qed.

Lemma tool_count_Tools (tms : list ToolMessage) :
  tool_count (map Tool tms) = Z.of_nat (List.length tms).
Proof.
  unfold tool_count. f_equal.
  induction tms as [|t tms IH]; simpl; [reflexivity | now rewrite IH].
Qed.

Lemma tool_count_rounds (rounds : list (ToolMessage * AIMessage)) :
  tool_count (flat_map round rounds) = Z.of_nat (List.length rounds).
Proof.
  induction rounds as [|r rounds IH]; [reflexivity|].
  change (flat_map round (r :: rounds))
    with ([Tool (fst r)] ++ [AI (snd r)] ++ flat_map round rounds)%list.
  rewrite !tool_count_app, IH. unfold tool_count at 1 2. simpl List.length. lia.
Qed.

Lemma should_continue_END (state : list BaseMessage) :
  should_continue cfg state = END <->
  (MAX_ITERATIONS cfg <= tool_count state)%Z.
Proof.
  unfold should_continue.
  destruct (Z.leb_spec (MAX_ITERATIONS cfg) (tool_count state));
    split; intros; try reflexivity; try assumption; try discriminate; lia.
Qed.

Lemma run_END (fuel : nat) (state : list BaseMessage) (w : World) :
  run fuel END state w = Some (Ok state, w).
Proof. destruct fuel; reflexivity. Qed.

Lemma generate_initial_response_Ok (state : list BaseMessage) (w : World)
  (m : AIMessage) (w1 : World) :
  generate_initial_response chain cfg state w = (Ok m, w1) ->
  chain initial_chain state w = (Ok m, w1).
Proof.
  unfold generate_initial_response, display_info, subscript, bind, ret, raise.
  destruct (chain initial_chain state w) as [[m'|e] w']; [|discriminate].
  destruct (VERBOSE cfg); [|now intros H; inversion H].
  destruct (tool_calls m') as [|tc ?]; [now intros H; inversion H|].
  destruct (answer (args tc)); [|discriminate].
  destruct (reflection (args tc)) as [r|]; [|discriminate].
  destruct (missing r); [|discriminate].
  destruct (search_queries (args tc)); [|discriminate].
  now intros H; inversion H.
Qed.

(** The revision step calls the revisor chain once, on its whole state, and
    returns the response, unless the print that follows fails to find the
    answer in it. *)
Lemma revise_answer_cases (state : list BaseMessage) (w : World) :
  match chain revisor_chain state w with
  | (Ok m, w1) =>
      revise_answer chain cfg state w = (Ok m, w1) \/
      revise_answer chain cfg state w = (Raise (KeyError "answer"), w1)
  | (Raise e, w1) => revise_answer chain cfg state w = (Raise e, w1)
  end.
Proof.
  unfold revise_answer, display_info, subscript, bind, ret, raise.
  destruct (chain revisor_chain state w) as [[m|e] w1]; [|reflexivity].
  destruct (VERBOSE cfg); auto.
  destruct (tool_calls m) as [|tc ?]; auto.
  destruct (answer (args tc)); auto.
Qed.

Lemma revise_answer_Ok (state : list BaseMessage) (w : World)
  (m : AIMessage) (w1 : World) :
  revise_answer chain cfg state w = (Ok m, w1) ->
  chain revisor_chain state w = (Ok m, w1).
Proof.
  pose proof (revise_answer_cases state w) as C.
  destruct (chain revisor_chain state w) as [[m'|e] w'].
  - destruct C as [-> | ->]; [now intros H; inversion H | discriminate].
  - rewrite C. discriminate.
Qed.

Lemma run_generate (fuel : nat) (state : list BaseMessage) (w : World) :
  run (S fuel) generate state w
  = match generate_initial_response chain cfg state w with
    | (Ok m, w1) => run fuel execute_tools_node (state ++ [AI m]) w1
    | (Raise e, w1) => Some (Raise e, w1)
    end.
Proof.
  simpl. unfold bind, ret.
  destruct (generate_initial_response chain cfg state w) as [[m|e] w1];
    reflexivity.
Qed.

Lemma run_execute_tools (fuel : nat) (state : list BaseMessage) (w : World) :
  run (S fuel) execute_tools_node state w
  = match execute_tools search cfg state w with
    | (Ok tms, w1) => run fuel revise (state ++ map Tool tms) w1
    | (Raise e, w1) => Some (Raise e, w1)
    end.
Proof.
  simpl. unfold bind, ret.
  destruct (execute_tools search cfg state w) as [[tms|e] w1]; reflexivity.
Qed.

Lemma run_revise (fuel : nat) (state : list BaseMessage) (w : World) :
  run (S fuel) revise state w
  = match revise_answer chain cfg state w with
    | (Ok m, w1) =>
        run fuel (should_continue cfg (state ++ [AI m])) (state ++ [AI m]) w1
    | (Raise e, w1) => Some (Raise e, w1)
    end.
Proof.
  simpl. unfold bind, ret.
  destruct (revise_answer chain cfg state w) as [[m|e] w1]; reflexivity.
Qed.

(** One round of a run that ends normally: a research step, a revision on
    the whole history, and the continuation check. *)
Lemma run_round (fuel : nat) (state final : list BaseMessage) (w w' : World) :
  run fuel execute_tools_node state w = Some (Ok final, w') ->
  exists fuel' tms m w1 w2,
    fuel = S (S fuel') /\
    execute_tools search cfg state w = (Ok tms, w1) /\
    revise_answer chain cfg (state ++ map Tool tms) w1 = (Ok m, w2) /\
    run fuel' (should_continue cfg ((state ++ map Tool tms) ++ [AI m]))
      ((state ++ map Tool tms) ++ [AI m]) w2 = Some (Ok final, w').
Proof.
  destruct fuel as [|fuel]; [discriminate|].
  rewrite run_execute_tools.
  destruct (execute_tools search cfg state w) as [[tms|e] w1] eqn:Ex;
    [|discriminate].
  destruct fuel as [|fuel]; [discriminate|].
  rewrite run_revise.
  destruct (revise_answer chain cfg _ w1) as [[m|e] w2] eqn:Er;
    [|discriminate].
  intros H. exists fuel, tms, m, w1, w2. repeat split; auto.
Qed.

(** The history only grows. *)
Lemma run_extends (fuel : nat) :
  forall n state w final w',
    run fuel n state w = Some (Ok final, w') ->
    exists ext, final = (state ++ ext)%list.
Proof.
  induction fuel as [|fuel IH]; intros n state w final w' H.
  - destruct n; try discriminate. inversion H; subst.
    exists []. now rewrite app_nil_r.
  - destruct n.
    + rewrite run_generate in H.
      destruct (generate_initial_response chain cfg state w) as [[m|e] w1];
        [|discriminate].
      apply IH in H as [ext ->]. rewrite <- app_assoc. eauto.
    + rewrite run_execute_tools in H.
      destruct (execute_tools search cfg state w) as [[tms|e] w1];
        [|discriminate].
      apply IH in H as [ext ->]. rewrite <- app_assoc. eauto.
    + rewrite run_revise in H.
      destruct (revise_answer chain cfg state w) as [[m|e] w1];
        [|discriminate].
      apply IH in H as [ext ->]. rewrite <- app_assoc. eauto.
    + rewrite run_END in H. inversion H; subst.
      exists []. now rewrite app_nil_r.
Qed.

(** A run that ends normally ends on the continuation check: the count of
    ToolMessages has reached MAX_ITERATIONS. *)
Lemma run_reaches_max (fuel : nat) :
  forall n state w final w',
    run fuel n state w = Some (Ok final, w') ->
    (n = END -> (MAX_ITERATIONS cfg <= tool_count state)%Z) ->
    (MAX_ITERATIONS cfg <= tool_count final)%Z.
Proof.
  induction fuel as [|fuel IH]; intros n state w final w' H Hn.
  - destruct n; try discriminate. inversion H; subst. auto.
  - destruct n.
    + rewrite run_generate in H.
      destruct (generate_initial_response chain cfg state w) as [[m|e] w1];
        [|discriminate].
      eapply IH; [eassumption | discriminate].
    + rewrite run_execute_tools in H.
      destruct (execute_tools search cfg state w) as [[tms|e] w1];
        [|discriminate].
      eapply IH; [eassumption | discriminate].
    + rewrite run_revise in H.
      destruct (revise_answer chain cfg state w) as [[m|e] w1];
        [|discriminate].
      eapply IH; [eassumption | apply should_continue_END].
    + rewrite run_END in H. inversion H; subst. auto.
Qed.

(** With [VERBOSE] on, every research step that returns adds a
    ToolMessage, so the rounds left are bounded. *)
Lemma run_rounds_terminate :
  VERBOSE cfg = true ->
  forall n fuel state w,
    Z.to_nat (Z.max 1 (MAX_ITERATIONS cfg - tool_count state)) <= n ->
    2 * n <= fuel ->
    run fuel execute_tools_node state w <> None.
Proof.
  intros Hv. induction n as [|n IH]; intros fuel state w Hn Hf; [lia|].
  destruct fuel as [|[|fuel]]; try lia.
  rewrite run_execute_tools.
  destruct (execute_tools search cfg state w) as [[tms|e] w1] eqn:Ex;
    [|discriminate].
  apply execute_tools_Ok in Ex as [h [m [-> [Hl Hc]]]].
  specialize (Hc Hv).
  rewrite run_revise.
  destruct (revise_answer chain cfg _ w1) as [[m1|e] w2]; [|discriminate].
  unfold should_continue.
  destruct (Z.leb_spec (MAX_ITERATIONS cfg)
              (tool_count (((h ++ [AI m]) ++ map Tool tms) ++ [AI m1])))
    as [Hle|Hlt].
  - rewrite run_END. discriminate.
  - apply IH; [|lia].
    rewrite !tool_count_app, tool_count_Tools in *.
    change (tool_count [AI m1]) with 0%Z in *. lia.
Qed.

(** When every AI message carries one handled call, the history after the
    first answer is a sequence of rounds, as many as it takes for the count
    of ToolMessages to reach MAX_ITERATIONS, and one at least. *)
Lemma run_rounds_shape (fuel : nat) :
  forall state w final w',
    run fuel execute_tools_node state w = Some (Ok final, w') ->
    one_call_each final = true ->
    exists rounds,
      final = (state ++ flat_map round rounds)%list /\
      Z.of_nat (List.length rounds)
      = Z.max 1 (MAX_ITERATIONS cfg - tool_count state).
Proof.
  induction fuel as [fuel IH] using lt_wf_ind.
  intros state w final w' H Hone.
  apply run_round in H as [fuel' [tms [m [w1 [w2 [-> [Ex [Er H]]]]]]]].
  apply execute_tools_Ok in Ex as [h [m0 [-> [Hl _]]]].
  assert (Hm0 : handled_calls m0 = 1).
  { destruct (run_extends _ _ _ _ H) as [ext E].
    unfold one_call_each in Hone. rewrite forallb_forall in Hone.
    specialize (Hone (AI m0)). simpl in Hone.
    apply Nat.eqb_eq, Hone. rewrite E, !in_app_iff. simpl. tauto. }
  rewrite Hm0 in Hl.
  destruct tms as [|t [|t' tms]]; try discriminate. simpl map in *.
  unfold should_continue in H.
  destruct (Z.leb_spec (MAX_ITERATIONS cfg)
              (tool_count (((h ++ [AI m0]) ++ [Tool t]) ++ [AI m])))
    as [Hle|Hlt].
  - rewrite run_END in H. inversion H; subst.
    exists [(t, m)]. simpl. rewrite <- !app_assoc. split; [reflexivity|].
    rewrite !tool_count_app in Hle.
    change (tool_count [Tool t]) with 1%Z in Hle.
    change (tool_count [AI m]) with 0%Z in Hle.
    rewrite tool_count_app. lia.
  - apply IH in H as [rounds [E L]]; [|lia|assumption].
    exists ((t, m) :: rounds). subst final. simpl.
    rewrite <- !app_assoc. split; [reflexivity|].
    rewrite !tool_count_app in *.
    change (tool_count [Tool t]) with 1%Z in *.
    change (tool_count [AI m]) with 0%Z in *. lia.
Qed.

Lemma app_same_length {A} (a c b d : list A) :
  List.length a = List.length c -> (a ++ b = c ++ d)%list -> a = c /\ b = d.
Proof.
  revert c; induction a as [|x a IH]; intros [|y c] L E; simpl in *;
    try discriminate; [auto|].
  inversion E; subst. destruct (IH c) as [-> ->]; auto.
Qed.

(** Every AI message that a run adds after its first node is the answer of
    the revisor chain to the whole history before it. *)
Lemma run_revised_from_history (fuel : nat) :
  forall n state w final w',
    run fuel n state w = Some (Ok final, w') ->
    n <> generate ->
    forall pre m post,
      final = (pre ++ AI m :: post)%list ->
      List.length state <= List.length pre ->
      exists w1 w2, chain revisor_chain pre w1 = (Ok m, w2).
Proof.
  induction fuel as [|fuel IH]; intros n state w final w' H Hn pre m post E L.
  - destruct n; try discriminate. inversion H; subst.
    rewrite length_app in L. simpl in L. lia.
  - destruct n; [contradiction| | |].
    + rewrite run_execute_tools in H.
      destruct (execute_tools search cfg state w) as [[tms|e] w1];
        [|discriminate].
      destruct (Nat.le_gt_cases (List.length (state ++ map Tool tms))
                  (List.length pre)) as [Hle|Hgt].
      * eapply IH; try eassumption. discriminate.
      * exfalso. destruct (run_extends _ _ _ _ H) as [ext E'].
        rewrite E in E'. rewrite length_app, length_map in Hgt.
        assert (N : nth_error (pre ++ AI m :: post) (List.length pre)
                    = Some (AI m))
          by (rewrite nth_error_app2, Nat.sub_diag by lia; reflexivity).
        rewrite E', <- app_assoc in N.
        rewrite nth_error_app2 in N by lia.
        rewrite nth_error_app1 in N by (rewrite length_map; lia).
        rewrite nth_error_map in N.
        destruct (nth_error tms _); discriminate.
    + rewrite run_revise in H.
      destruct (revise_answer chain cfg state w) as [[m1|e] w1] eqn:Er;
        [|discriminate].
      destruct (Nat.le_gt_cases (List.length (state ++ [AI m1]))
                  (List.length pre)) as [Hle|Hgt].
      * eapply IH; try eassumption.
        unfold should_continue. destruct (_ <=? _)%Z; discriminate.
      * rewrite length_app in Hgt. simpl in Hgt.
        destruct (run_extends _ _ _ _ H) as [ext E'].
        rewrite E, <- app_assoc in E'.
        apply app_same_length in E' as [-> E']; [|lia].
        inversion E'; subst. apply revise_answer_Ok in Er. eauto.
    + rewrite run_END in H. inversion H; subst.
      rewrite length_app in L. simpl in L. lia.
Qed.

(** A run from the question that ends normally starts with the first
    answer of the language model. *)
Lemma invoke_Ok (fuel : nat) (question : string) (w : World)
  (final : list BaseMessage) (w' : World) :
  invoke search chain cfg fuel [Human question] w = Some (Ok final, w') ->
  exists fuel' m0 w1,
    fuel = S fuel' /\
    chain initial_chain [Human question] w = (Ok m0, w1) /\
    run fuel' execute_tools_node [Human question; AI m0] w1
    = Some (Ok final, w').
Proof.
  unfold invoke. destruct fuel as [|fuel]; [discriminate|].
  rewrite run_generate.
  destruct (generate_initial_response chain cfg [Human question] w)
    as [[m0|e] w1] eqn:E; [|discriminate].
  apply generate_initial_response_Ok in E.
  intros H. exists fuel, m0, w1. auto.
Qed.

(* ---------------------------------------------------------------------- *)
(** *** Termination and the number of rounds *)

(** C1 (as the code has it).  The continuation check counts the
    ToolMessages of the history and ends the run when the count has reached
    MAX_ITERATIONS; it is made after [revise] only, the edges from
    [generate] to [execute_tools] and from [execute_tools] to [revise]
    being unconditional.  So a run from the question ends with at least
    MAX_ITERATIONS ToolMessages; with [VERBOSE] on it ends within
    [1 + 2 * max 1 MAX_ITERATIONS] nodes; and when every AI message
    carries exactly one handled tool call, the history is the question,
    the first answer and [max 1 MAX_ITERATIONS] rounds of one ToolMessage
    and one revised answer: the number of ToolMessages is
    [max 1 MAX_ITERATIONS], which is MAX_ITERATIONS when that is 1 or
    more. *)
Theorem C1_rounds_run (question : string) (w : World) :
  (forall state,
     should_continue cfg state = END <->
     (MAX_ITERATIONS cfg <= tool_count state)%Z) /\
  (VERBOSE cfg = true ->
   forall fuel, enough_fuel cfg <= fuel ->
                invoke search chain cfg fuel [Human question] w <> None) /\
  (forall fuel final w',
     invoke search chain cfg fuel [Human question] w = Some (Ok final, w') ->
     (MAX_ITERATIONS cfg <= tool_count final)%Z /\
     (one_call_each final = true ->
      exists m0 rounds,
        final = ([Human question; AI m0] ++ flat_map round rounds)%list /\
        Z.of_nat (List.length rounds) = Z.max 1 (MAX_ITERATIONS cfg) /\
        tool_count final = Z.max 1 (MAX_ITERATIONS cfg) /\
        ((1 <= MAX_ITERATIONS cfg)%Z ->
         tool_count final = MAX_ITERATIONS cfg))).
Proof.
  split; [apply should_continue_END|]. split.
  - intros Hv fuel Hf. unfold invoke, enough_fuel in *.
    destruct fuel as [|fuel]; [lia|].
    rewrite run_generate.
    destruct (generate_initial_response chain cfg [Human question] w)
      as [[m0|e] w1]; [|discriminate].
    apply run_rounds_terminate
      with (n := Z.to_nat (Z.max 1 (MAX_ITERATIONS cfg))); [assumption| |lia].
    change (tool_count ([Human question] ++ [AI m0])) with 0%Z.
    rewrite Z.sub_0_r. lia.
  - intros fuel final w' H. split.
    + unfold invoke in H.
      eapply run_reaches_max; [eassumption | discriminate].
    + intros Hone.
      apply invoke_Ok in H as [fuel' [m0 [w1 [-> [_ H]]]]].
      apply run_rounds_shape in H as [rounds [E L]]; [|assumption].
      change (tool_count [Human question; AI m0]) with 0%Z in L.
      rewrite Z.sub_0_r in L.
      exists m0, rounds. split; [exact E|]. split; [exact L|].
      assert (T : tool_count final = Z.max 1 (MAX_ITERATIONS cfg)).
      { rewrite E, tool_count_app, tool_count_rounds, L.
        change (tool_count [Human question; AI m0]) with 0%Z. lia. }
      split; [exact T|]. intros. lia.
Qed.

(** C2 (as the code has it).  With MAX_ITERATIONS at 0 the loop still runs
    one full round: a run given three nodes or more ends, and a run that
    ends normally leaves the question, the first answer, the ToolMessages
    of one research step on that answer and the answer of one revision on
    all of these.  The final answer the caller extracts is the revised
    one. *)
Theorem C2_zero_iterations (question : string) (w : World) :
  MAX_ITERATIONS cfg = 0%Z ->
  (forall fuel, 3 <= fuel ->
                invoke search chain cfg fuel [Human question] w <> None) /\
  (forall fuel final w',
     invoke search chain cfg fuel [Human question] w = Some (Ok final, w') ->
     exists m0 tms m1 w1 w2,
       chain initial_chain [Human question] w = (Ok m0, w1) /\
       execute_tools search cfg [Human question; AI m0] w1 = (Ok tms, w2) /\
       chain revisor_chain ([Human question; AI m0] ++ map Tool tms) w2
       = (Ok m1, w') /\
       final = ([Human question; AI m0] ++ map Tool tms ++ [AI m1])%list /\
       (forall a, first_call_named "ReviseAnswer" (AI m1) = Some a ->
                  extract_final_answer final = Some a)).
Proof.
  intros Hmax.
  assert (Hend : forall state, should_continue cfg state = END).
  { intros state. apply should_continue_END. rewrite Hmax.
    unfold tool_count. lia. }
  split.
  - intros fuel Hf. unfold invoke.
    destruct fuel as [|[|[|fuel]]]; try lia.
    rewrite run_generate.
    destruct (generate_initial_response chain cfg [Human question] w)
      as [[m0|e] w1]; [|discriminate].
    rewrite run_execute_tools.
    destruct (execute_tools search cfg _ w1) as [[tms|e] w2]; [|discriminate].
    rewrite run_revise.
    destruct (revise_answer chain cfg _ w2) as [[m1|e] w3]; [|discriminate].
    rewrite Hend, run_END. discriminate.
  - intros fuel final w' H.
    apply invoke_Ok in H as [fuel' [m0 [w1 [-> [E0 H]]]]].
    apply run_round in H as [fuel'' [tms [m1 [w2 [w3 [-> [Ex [Er H]]]]]]]].
    rewrite Hend, run_END in H. inversion H; subst.
    apply revise_answer_Ok in Er.
    exists m0, tms, m1, w1, w2.
    split; [exact E0|]. split; [exact Ex|]. split; [exact Er|].
    split; [reflexivity|].
    intros a Ha. unfold extract_final_answer.
    change (Human question :: AI m0 :: map Tool tms ++ [AI m1])
      with (([Human question; AI m0] ++ map Tool tms) ++ [AI m1])%list.
    rewrite rev_app_distr. simpl rev. simpl app.
    unfold first_some. rewrite Ha. reflexivity.
Qed.

(* ---------------------------------------------------------------------- *)
(** *** What the language model is asked, and what is kept of its answers *)

(** C6.  The revision step calls the revisor chain once, on its whole
    state, and returns what the chain answers (or the chain's exception;
    with [VERBOSE] on, a response whose first tool call has no answer makes
    the print that follows raise [KeyError]).  That chain is bound to
    [ReviseAnswer], whose fields are those of [AnswerQuestion] followed by
    [references], which [AnswerQuestion] does not have.  In a run, every AI
    message after the first answer is the answer of the revisor chain to
    the entire history before it. *)
Theorem C6_revision_reads_whole_history :
  (forall state w,
     match chain revisor_chain state w with
     | (Ok m, w1) =>
         revise_answer chain cfg state w = (Ok m, w1) \/
         revise_answer chain cfg state w = (Raise (KeyError "answer"), w1)
     | (Raise e, w1) => revise_answer chain cfg state w = (Raise e, w1)
     end) /\
  (forall state w m w1,
     revise_answer chain cfg state w = (Ok m, w1) ->
     chain revisor_chain state w = (Ok m, w1)) /\
  tool revisor_chain = ReviseAnswer /\
  tool initial_chain = AnswerQuestion /\
  fields ReviseAnswer = (fields AnswerQuestion ++ ["references"])%list /\
  ~ In "references" (fields AnswerQuestion) /\
  (forall fuel question w final w',
     invoke search chain cfg fuel [Human question] w = Some (Ok final, w') ->
     forall pre m post,
       final = (pre ++ AI m :: post)%list ->
       2 <= List.length pre ->
       exists w1 w2, chain revisor_chain pre w1 = (Ok m, w2)).
Proof.
  split; [exact revise_answer_cases|].
  split; [exact revise_answer_Ok|].
  split; [reflexivity|]. split; [reflexivity|]. split; [reflexivity|].
  split.
  { simpl. intros [H|[H|[H|[]]]]; discriminate. }
  intros fuel question w final w' H pre m post E L.
  apply invoke_Ok in H as [fuel' [m0 [w1 [-> [_ H]]]]].
  eapply run_revised_from_history; try eassumption. discriminate.
Qed.


End Loop.

(* ====================================================================== *)
(** ** Concrete runs *)
(* ====================================================================== *)

(** With MAX_ITERATIONS at 0 one round is run all the same and the history
    has one ToolMessage; and with MAX_ITERATIONS at 1, a first answer
    that carries two handled calls leaves two ToolMessages. *)
Lemma C1_more_records_than_iterations :
  (run_agent (config_with 0 true) 3
     (world_answers [initial_reply; revised_reply])
   = Some (Ok history_one_round, world_answers []) /\
   tool_count history_one_round = 1%Z /\
   ~ (tool_count history_one_round
      <= MAX_ITERATIONS (config_with 0 true))%Z) /\
  (run_agent (config_with 1 true) 3
     (world_answers [double_reply; revised_reply])
   = Some (Ok history_double, world_answers []) /\
   tool_count history_double = 2%Z /\
   ~ (tool_count history_double <= MAX_ITERATIONS (config_with 1 true))%Z).
Proof.
  repeat split; try reflexivity; vm_compute; intros H; apply H; reflexivity.
Qed.

Lemma C1_rounds_run_witness :
  VERBOSE config = true /\ enough_fuel config <= 5 /\
  run_agent config 5
    (world_answers [initial_reply; revised_reply; revised_reply]) <> None /\
  run_agent config 5
    (world_answers [initial_reply; revised_reply; revised_reply])
  = Some (Ok history_two_rounds, world_answers []) /\
  one_call_each history_two_rounds = true /\
  tool_count history_two_rounds = MAX_ITERATIONS config.
Proof.
  destruct (C1_rounds_run scripted_search scripted_chain config "What is X?"
              (world_answers [initial_reply; revised_reply; revised_reply]))
    as [_ [T P]].
  split; [reflexivity|]. split; [vm_compute; lia|].
  split; [apply T; [reflexivity | vm_compute; lia]|].
  split; [reflexivity|]. split; [reflexivity|].
  destruct (P 5 history_two_rounds (world_answers []) eq_refl) as [_ Q].
  destruct (Q eq_refl) as [m0 [rounds [_ [_ [_ HM]]]]].
  apply HM. vm_compute. discriminate.
Defined.

(** With MAX_ITERATIONS at 0 the history has three messages after the
    question, a ToolMessage among them, and the final answer is the revised
    one, not the first one. *)
Lemma C2_zero_iterations_runs_a_round :
  run_agent (config_with 0 true) 3
    (world_answers [initial_reply; revised_reply])
  = Some (Ok history_one_round, world_answers []) /\
  List.length history_one_round = 1 + 3 /\
  tool_count history_one_round = 1%Z /\
  extract_final_answer history_one_round
  = Some (args (the_call revised_reply)) /\
  extract_final_answer history_one_round
  <> Some (args (the_call initial_reply)).
Proof.
  repeat split; try reflexivity. discriminate.
Qed.

Lemma C2_zero_iterations_witness :
  MAX_ITERATIONS (config_with 0 false) = 0%Z /\
  run_agent (config_with 0 false) 3
    (world_answers [initial_reply; revised_reply]) <> None /\
  exists m0 tms m1,
    history_one_round = (question_X ++ [AI m0] ++ map Tool tms ++ [AI m1])%list /\
    extract_final_answer history_one_round = Some (args (the_call m1)).
Proof.
  destruct (C2_zero_iterations scripted_search scripted_chain
              (config_with 0 false) "What is X?"
              (world_answers [initial_reply; revised_reply]) eq_refl)
    as [T P].
  split; [reflexivity|]. split; [apply T; lia|].
  destruct (P 3 history_one_round (world_answers []) eq_refl)
    as [m0 [tms [m1 [w1 [w2 [E0 [Ex [Er [E F]]]]]]]]].
  exists m0, tms, m1. split; [exact E|].
  apply F.
  assert (Em : AI revised_reply = AI m1).
  { apply (@app_inj_tail BaseMessage
             [Human "What is X?"; AI initial_reply;
              found "call_0" [("what is X", "snippet-1")]]
             (Human "What is X?" :: AI m0 :: map Tool tms)
             (AI revised_reply) (AI m1) E). }
  inversion Em; subst m1. reflexivity.
Defined.

(** A repeated query has one entry, the one of its last search. *)
Lemma C3_repeated_query_one_entry :
  research config repeated_query_reply
    (world_searches [Ok "first"; Ok "second"])
  = (Ok [{| content := json_dumps [("q", "second")];
            tool_call_id := "call_0" |}], world_searches []) /\
  for_queries scripted_search config ["q"; "q"] []
    (world_searches [Ok "first"; Ok "second"])
  = (Ok [("q", "second")], world_searches []) /\
  keys [("q", "second")] <> ["q"; "q"] /\
  List.length [("q", "second")] <> List.length ["q"; "q"].
Proof.
  repeat split; try reflexivity; discriminate.
Qed.

Lemma C3_results_keys_witness :
  filter handled (tool_calls three_queries_reply)
  = [the_call three_queries_reply] /\
  exists d w',
    research config three_queries_reply
      (world_searches [Ok "one"; Raise boom; Ok "three"])
    = (Ok [{| content := json_dumps d; tool_call_id := "call_0" |}], w') /\
    keys d = ["a"; "b"; "c"].
Proof.
  split; [reflexivity|].
  destruct (C3_results_keys scripted_search config question_X
              three_queries_reply
              (world_searches [Ok "one"; Raise boom; Ok "three"])
              eq_refl eq_refl)
    as [d [w' [E [K _]]]].
  exists d, w'. split; [exact E | exact K].
Defined.

(** A query that fails and is searched again with success keeps the
    snippet: its entry is not the marker of the failure. *)
Lemma C4_failed_query_searched_again :
  research config repeated_query_reply
    (world_searches [Raise boom; Ok "fine"])
  = (Ok [{| content := json_dumps [("q", "fine")];
            tool_call_id := "call_0" |}], world_searches []) /\
  fst (search_all scripted_search ["q"; "q"]
         (world_searches [Raise boom; Ok "fine"]))
  = [Raise boom; Ok "fine"] /\
  dict_get "q" [("q", "fine")] = Some "fine" /\
  dict_get "q" [("q", "fine")] <> Some ("Search unavailable: " ++ str boom).
Proof.
  repeat split; try reflexivity. discriminate.
Qed.

Lemma C4_search_failures_absorbed_witness :
  forallb absorbed [Ok "one"; Raise boom; Ok "three"] = true /\
  exists d,
    research config three_queries_reply
      (world_searches [Ok "one"; Raise boom; Ok "three"])
    = (Ok [{| content := json_dumps d; tool_call_id := "call_0" |}],
       world_searches []) /\
    dict_get "a" d = Some "one" /\
    dict_get "b" d = Some "Search unavailable: network down" /\
    dict_get "c" d = Some "three".
Proof.
  split; [reflexivity|].
  destruct (C4_search_failures_absorbed scripted_search config question_X
              three_queries_reply
              (world_searches [Ok "one"; Raise boom; Ok "three"])
              eq_refl eq_refl)
    as [[d [E [_ G]]] _].
  exists d. split; [exact E|].
  split; [|split].
  - apply (G 0 "a" (Ok "one") eq_refl eq_refl).
    no_later_occurrence.
  - apply (G 1 "b" (Raise boom) eq_refl eq_refl).
    no_later_occurrence.
  - apply (G 2 "c" (Ok "three") eq_refl eq_refl).
    no_later_occurrence.
Defined.

(** The last message is not a ReasoningRecord, and the research step gives
    the empty list with [VERBOSE] off, [UnboundLocalError] with [VERBOSE]
    on, and [AttributeError] on a history that ends with the question:
    never [ProtocolViolation]. *)
Lemma C5_no_protocol_violation_raised :
  last_is_reasoning_record (question_X ++ [AI plain_reply]) = false /\
  research (config_with 2 false) plain_reply (world_answers [])
  = (Ok [], world_answers []) /\
  research config plain_reply (world_answers [])
  = (Raise UnboundLocalError, world_answers []) /\
  is_ProtocolViolation UnboundLocalError = false /\
  last_is_reasoning_record question_X = false /\
  execute_tools scripted_search config question_X (world_answers [])
  = (Raise (AttributeError "HumanMessage"), world_answers []) /\
  is_ProtocolViolation (AttributeError "HumanMessage") = false.
Proof.
  repeat split; reflexivity.
Qed.

Lemma C5_no_protocol_violation_witness :
  last_is_reasoning_record (question_X ++ [AI plain_reply]) = false /\
  research (config_with 2 false) plain_reply (world_answers [])
  = (Ok [], world_answers []).
Proof.
  split; [reflexivity|].
  destruct (C5_no_protocol_violation scripted_search (config_with 2 false)
              (question_X ++ [AI plain_reply]) (world_answers []) eq_refl)
    as [_ [_ H]].
  apply (H eq_refl plain_reply). reflexivity.
Defined.

Lemma C6_revision_reads_whole_history_witness :
  run_agent config 5
    (world_answers [initial_reply; revised_reply; revised_reply])
  = Some (Ok history_two_rounds, world_answers []) /\
  exists w1 w2,
    scripted_chain revisor_chain
      (question_X ++ [AI initial_reply; found "call_0" [("what is X", "snippet-1")]])
      w1
    = (Ok revised_reply, w2).
Proof.
  split; [reflexivity|].
  destruct (C6_revision_reads_whole_history scripted_search scripted_chain
              config) as [_ [_ [_ [_ [_ [_ H]]]]]].
  apply (H 5 "What is X?"
           (world_answers [initial_reply; revised_reply; revised_reply])
           history_two_rounds (world_answers []) eq_refl
           (question_X ++ [AI initial_reply;
                           found "call_0" [("what is X", "snippet-1")]])%list
           revised_reply
           [found "call_1" [("X history", "snippet-1")]; AI revised_reply]).
  - reflexivity.
  - simpl. lia.
Defined.

(** A query that succeeds and is searched again with a failure keeps the
    marker, here of 920 characters: its entry is not the cut result. *)
Lemma C7_successful_query_searched_again :
  research config repeated_query_reply
    (world_searches [Ok "short"; Raise (Exception_ "TimeoutError" (xs 900))])
  = (Ok [{| content := json_dumps [("q", "Search unavailable: " ++ xs 900)];
            tool_call_id := "call_0" |}], world_searches []) /\
  nth_error
    (fst (search_all scripted_search ["q"; "q"]
            (world_searches
               [Ok "short"; Raise (Exception_ "TimeoutError" (xs 900))])))
    0
  = Some (Ok "short") /\
  dict_get "q" [("q", "Search unavailable: " ++ xs 900)]
  <> Some (slice_to (SEARCH_RESULT_LIMIT config) "short") /\
  String.length ("Search unavailable: " ++ xs 900) = 920 /\
  ~ (Z.of_nat (String.length ("Search unavailable: " ++ xs 900))
     <= SEARCH_RESULT_LIMIT config)%Z.
Proof.
  repeat split; try reflexivity; [discriminate|].
  vm_compute. intros H; apply H; reflexivity.
Qed.

Lemma C7_snippets_truncated_witness :
  SEARCH_RESULT_LIMIT config = 800%Z /\
  String.length (xs 1000) = 1000 /\
  exists d w',
    research config one_query_reply (world_searches [Ok (xs 1000)])
    = (Ok [{| content := json_dumps d; tool_call_id := "call_0" |}], w') /\
    dict_get "q" d = Some (xs 800) /\
    String.length (xs 800) <= 800.
Proof.
  split; [reflexivity|]. split; [reflexivity|].
  destruct (C7_snippets_truncated scripted_search config question_X
              one_query_reply (world_searches [Ok (xs 1000)])
              eq_refl eq_refl eq_refl)
    as [d [w' [E [G _]]]].
  exists d, w'. split; [exact E|].
  destruct (G 0 "q" (xs 1000) eq_refl eq_refl) as [G1 [_ [G2 _]]].
  - no_later_occurrence.
  - change (take_str 800 (xs 1000)) with (xs 800) in G1, G2.
    split; [exact G1 | exact G2].
Defined.



Lemma C9_unbound_search_queries_witness :
  VERBOSE config = true /\
  existsb handled (tool_calls plain_reply) = false /\
  research config plain_reply (world_answers [])
  = (Raise UnboundLocalError, world_answers []).
Proof.
  split; [reflexivity|]. split; [reflexivity|].
  apply (C9_unbound_search_queries scripted_search config question_X
           plain_reply (world_answers []) eq_refl eq_refl).
Defined.

(** After a failure, a second search of the same query that succeeds
    leaves no marker in the results. *)
Lemma C10_marker_overwritten :
  research config repeated_query_reply
    (world_searches [Raise (Exception_ "TimeoutError" "timed out");
                     Ok "fine"])
  = (Ok [{| content := json_dumps [("q", "fine")];
            tool_call_id := "call_0" |}], world_searches []) /\
  for_queries scripted_search config ["q"; "q"] []
    (world_searches [Raise (Exception_ "TimeoutError" "timed out");
                     Ok "fine"])
  = (Ok [("q", "fine")], world_searches []) /\
  nth_error
    (fst (search_all scripted_search ["q"; "q"]
            (world_searches [Raise (Exception_ "TimeoutError" "timed out");
                             Ok "fine"])))
    0
  = Some (Raise (Exception_ "TimeoutError" "timed out")) /\
  dict_get "q" [("q", "fine")]
  <> Some ("Search unavailable: "
           ++ str (Exception_ "TimeoutError" "timed out")) /\
  forall q v, In (q, v) [("q", "fine")] -> v = "fine".
Proof.
  repeat split; try reflexivity; [discriminate|].
  intros q v [H|[]]. now inversion H.
Qed.

Lemma C10_error_marker_not_truncated_witness :
  exists d w',
    research config one_query_reply
      (world_searches [Raise (Exception_ "TimeoutError" (xs 800))])
    = (Ok [{| content := json_dumps d; tool_call_id := "call_0" |}], w') /\
    dict_get "q" d = Some ("Search unavailable: " ++ xs 800) /\
    (SEARCH_RESULT_LIMIT config
     < Z.of_nat (String.length ("Search unavailable: " ++ xs 800)))%Z.
Proof.
  destruct (C10_error_marker_not_truncated scripted_search config question_X
              one_query_reply
              (world_searches [Raise (Exception_ "TimeoutError" (xs 800))])
              eq_refl eq_refl)
    as [d [w' [E G]]].
  exists d, w'. split; [exact E|].
  destruct (G 0 "q" (Exception_ "TimeoutError" (xs 800)) eq_refl eq_refl)
    as [G1 [_ G2]].
  - no_later_occurrence.
  - split; [exact G1|]. apply G2. vm_compute. reflexivity.
Defined.

(* ====================================================================== *)
(** ** More on the research step *)
(* ====================================================================== *)

Section ResearchMore.

Variable World : Type.
Variable search : string -> M World string.

Lemma for_queries_app (cfg : Config) (a b : list string) :
  forall d w,
    for_queries search cfg (a ++ b) d w
    = match for_queries search cfg a d w with
      | (Ok d', w') => for_queries search cfg b d' w'
      | (Raise e, w') => (Raise e, w')
      end.
Proof.
  induction a as [|q a IH]; intros d w; simpl; [reflexivity|].
  unfold bind.
  destruct (search_one search cfg q d w) as [[d1|e] w1]; [apply IH|reflexivity].
Qed.

(** The loops read the configuration for the limit of the snippets only. *)
Lemma for_queries_limit (cfg1 cfg2 : Config) (queries : list string) :
  SEARCH_RESULT_LIMIT cfg1 = SEARCH_RESULT_LIMIT cfg2 ->
  forall d w,
    for_queries search cfg1 queries d w = for_queries search cfg2 queries d w.
Proof.
  intros L. induction queries as [|q queries IH]; intros d w; simpl;
    [reflexivity|].
  unfold bind, search_one. rewrite L.
  destruct (try_except _ _ w) as [[d1|e] w1]; [apply IH|reflexivity].
Qed.

Lemma for_tool_calls_limit (cfg1 cfg2 : Config) (calls : list ToolCall) :
  SEARCH_RESULT_LIMIT cfg1 = SEARCH_RESULT_LIMIT cfg2 ->
  forall l w,
    for_tool_calls search cfg1 calls l w = for_tool_calls search cfg2 calls l w.
Proof.
  intros L. induction calls as [|tc calls IH]; intros l w; simpl;
    [reflexivity|].
  destruct (handled tc); [|apply IH].
  unfold bind. rewrite (for_queries_limit cfg1 cfg2 _ L).
  destruct (for_queries search cfg2 _ [] w) as [[d|e] w1];
    [apply IH|reflexivity].
Qed.

Lemma for_tool_calls_ids (cfg : Config) (calls : list ToolCall) :
  forall l w l' w',
    for_tool_calls search cfg calls l w = (Ok l', w') ->
    map tool_call_id (tool_messages l')
    = (map tool_call_id (tool_messages l)
       ++ map id (filter handled calls))%list.
Proof.
  induction calls as [|tc calls IH]; intros l w l' w' H; simpl in *.
  - inversion H; subst. now rewrite app_nil_r.
  - destruct (handled tc) eqn:Hh.
    + unfold bind in H.
      destruct (for_queries search cfg _ [] w) as [[d|e] w1]; [|discriminate].
      apply IH in H. rewrite H. simpl.
      rewrite map_app, <- app_assoc. reflexivity.
    + now apply IH in H.
Qed.

Lemma filter_handled_nonempty (calls : list ToolCall) :
  existsb handled calls = true -> filter handled calls <> [].
Proof.
  induction calls as [|tc calls IH]; simpl; [discriminate|].
  destruct (handled tc); [discriminate | exact IH].
Qed.

Lemma execute_tools_ids (cfg : Config) (state : list BaseMessage)
  (w : World) (tms : list ToolMessage) (w' : World) :
  execute_tools search cfg state w = (Ok tms, w') ->
  exists h m,
    state = (h ++ [AI m])%list /\
    map tool_call_id tms = map id (filter handled (tool_calls m)).
Proof.
  unfold execute_tools.
  destruct (last_message state) as [[t|m|t]|] eqn:EL; try discriminate.
  apply last_message_Some in EL as [h ->].
  unfold bind.
  destruct (for_tool_calls search cfg (tool_calls m) _ w) as [[l|e] w1] eqn:E;
    [|discriminate].
  apply for_tool_calls_ids in E. simpl in E.
  intros H. exists h, m. split; [reflexivity|].
  destruct (VERBOSE cfg); [destruct (search_queries_var l)|];
    inversion H; subst; exact E.
Qed.

(** X1.  The ToolMessages of a research step that returns answer the
    handled tool calls of the last message, one each and in their order:
    their [tool_call_id]s are the [id]s of those calls.  The other calls of
    the message get no ToolMessage. *)
Theorem X1_tool_messages_answer_handled_calls (cfg : Config)
  (state : list BaseMessage) (w : World) (tms : list ToolMessage)
  (w' : World) :
  execute_tools search cfg state w = (Ok tms, w') ->
  exists h m,
    state = (h ++ [AI m])%list /\
    map tool_call_id tms = map id (filter handled (tool_calls m)) /\
    List.length tms = handled_calls m.
Proof.
  intros H. destruct (execute_tools_ids _ _ _ H) as [h [m [E I]]].
  exists h, m. split; [exact E|]. split; [exact I|].
  unfold handled_calls.
  now rewrite <- (length_map tool_call_id), I, length_map.
Qed.

(** X2.  A handled call without the [search_queries] key, or with an empty
    list of queries, is answered by a ToolMessage whose content is the
    empty JSON object, and no search is made. *)
Theorem X2_no_queries_no_search (cfg : Config) (h : list BaseMessage)
  (m : AIMessage) (tc : ToolCall) (w : World) :
  tool_calls m = [tc] -> handled tc = true ->
  search_queries (args tc) = None \/ search_queries (args tc) = Some [] ->
  execute_tools search cfg (h ++ [AI m]) w
  = (Ok [{| content := "{}"; tool_call_id := id tc |}], w).
Proof.
  intros Hm Hh Hq. unfold execute_tools.
  rewrite last_message_app, Hm. simpl. rewrite Hh.
  unfold get_search_queries. destruct Hq as [-> | ->]; simpl;
    destruct (VERBOSE cfg); reflexivity.
Qed.

(** The research step reads the last message of the history only. *)
Lemma execute_tools_reads_last (cfg : Config)
  (h1 h2 : list BaseMessage) (last : BaseMessage) (w : World) :
  execute_tools search cfg (h1 ++ [last]) w
  = execute_tools search cfg (h2 ++ [last]) w.
Proof.
  unfold execute_tools. now rewrite !last_message_app.
Qed.

(** X3.  An exception of a search that is not an instance of [Exception]
    (a [KeyboardInterrupt]) is not absorbed: it leaves the research step
    as it is, in the world right after the failed search, so the queries
    that follow are not searched and no ToolMessage is returned. *)
Theorem X3_base_exception_aborts_the_batch (cfg : Config)
  (h : list BaseMessage) (m : AIMessage) (tc : ToolCall) (w : World)
  (before after : list string) (q : string) (e : PyExc) (w1 : World) :
  tool_calls m = [tc] -> handled tc = true ->
  get_search_queries (args tc) = (before ++ q :: after)%list ->
  forallb absorbed (fst (search_all search before w)) = true ->
  search q (snd (search_all search before w)) = (Raise e, w1) ->
  isinstance_Exception e = false ->
  execute_tools search cfg (h ++ [AI m]) w = (Raise e, w1).
Proof.
  intros Hm Hh Hq Ha Hs He. unfold execute_tools.
  rewrite last_message_app, Hm. simpl. rewrite Hh, Hq. unfold bind.
  rewrite for_queries_app, for_queries_absorbed by exact Ha.
  simpl. unfold bind.
  destruct (search_one_escapes search cfg q
              (store_all cfg before (fst (search_all search before w)) [])
              (snd (search_all search before w)))
    as [e' [E1 [_ E2]]].
  { rewrite Hs. simpl. exact He. }
  rewrite E2. rewrite Hs in E1. simpl in E1. inversion E1; subst e'.
  rewrite Hs. reflexivity.
Qed.

(** X4.  When the last message carries a handled tool call, the research
    step depends on the configuration through SEARCH_RESULT_LIMIT only:
    neither [VERBOSE] nor MAX_ITERATIONS changes its result. *)
Theorem X4_verbose_changes_nothing_with_a_handled_call (cfg1 cfg2 : Config)
  (h : list BaseMessage) (m : AIMessage) (w : World) :
  SEARCH_RESULT_LIMIT cfg1 = SEARCH_RESULT_LIMIT cfg2 ->
  existsb handled (tool_calls m) = true ->
  execute_tools search cfg1 (h ++ [AI m]) w
  = execute_tools search cfg2 (h ++ [AI m]) w.
Proof.
  intros L Hh. unfold execute_tools. rewrite !last_message_app.
  unfold bind. rewrite (for_tool_calls_limit cfg1 cfg2 _ L).
  destruct (for_tool_calls search cfg2 (tool_calls m) _ w)
    as [[l|e] w1] eqn:E; [|reflexivity].
  apply for_tool_calls_Ok in E as [_ E].
  destruct (search_queries_var l) eqn:Eq.
  - destruct (VERBOSE cfg1), (VERBOSE cfg2); reflexivity.
  - exfalso. destruct E as [E _]. destruct (E eq_refl) as [_ F].
    now apply filter_handled_nonempty in Hh.
Qed.

End ResearchMore.

(* ====================================================================== *)
(** ** More on the nodes and on the loop *)
(* ====================================================================== *)

Section LoopMore.

Variable World : Type.
Variable search : string -> M World string.
Variable chain : Chain -> list BaseMessage -> M World AIMessage.
Variable cfg : Config.

Local Abbreviation run := (run_from search chain cfg).

Lemma tool_count_nonneg (state : list BaseMessage) :
  (0 <= tool_count state)%Z.
Proof. unfold tool_count. lia. Qed.

Lemma tool_count_no_Tool (ext : list BaseMessage) :
  forallb (fun msg => negb (isinstance_ToolMessage msg)) ext = true ->
  tool_count ext = 0%Z.
Proof.
  unfold tool_count. induction ext as [|x ext IH]; simpl; [reflexivity|].
  intros H. apply andb_prop in H as [Hx H].
  destruct (isinstance_ToolMessage x); [discriminate | auto].
Qed.

(** X5.  Once the continuation check says END it says so however the
    history grows, and messages that are not ToolMessages do not change
    what it says. *)
Theorem X5_should_continue_stable (state ext : list BaseMessage) :
  (should_continue cfg state = END ->
   should_continue cfg (state ++ ext) = END) /\
  (forallb (fun msg => negb (isinstance_ToolMessage msg)) ext = true ->
   should_continue cfg (state ++ ext) = should_continue cfg state).
Proof.
  split.
  - rewrite !should_continue_END, tool_count_app.
    pose proof (tool_count_nonneg ext). lia.
  - intros H. unfold should_continue.
    now rewrite tool_count_app, (tool_count_no_Tool _ H), Z.add_0_r.
Qed.

(** What the prints after the first response do: nothing when [VERBOSE] is
    off or the first tool call has its keys, the [KeyError] of the first
    key that is not there otherwise. *)
Lemma generate_after_chain (messages : list BaseMessage) (w : World)
  (m : AIMessage) (w1 : World) :
  chain initial_chain messages w = (Ok m, w1) ->
  (generate_initial_response chain cfg messages w = (Ok m, w1) /\
   (VERBOSE cfg = false \/ first_call_ok complete m = true)) \/
  (exists tc rest key,
     tool_calls m = tc :: rest /\
     first_key_not_printed (args tc) = Some key /\
     generate_initial_response chain cfg messages w
     = (Raise (KeyError key), w1) /\
     VERBOSE cfg = true /\ first_call_ok complete m = false).
Proof.
  intros E.
  unfold generate_initial_response, display_info, first_call_ok, complete,
    first_key_not_printed, subscript, bind, ret, raise.
  rewrite E.
  destruct (VERBOSE cfg); [|auto].
  destruct (tool_calls m) as [|tc rest]; [auto|].
  destruct (answer (args tc)) eqn:Ea;
    [|right; exists tc, rest, "answer"; rewrite Ea; repeat split].
  destruct (reflection (args tc)) as [r|] eqn:Er;
    [|right; exists tc, rest, "reflection"; rewrite Ea, Er; repeat split].
  destruct (missing r) eqn:Em;
    [|right; exists tc, rest, "missing"; rewrite Ea, Er, Em; repeat split].
  destruct (search_queries (args tc)) eqn:Es; [auto|].
  right; exists tc, rest, "search_queries".
  rewrite Ea, Er, Em, Es. repeat split.
Qed.

Lemma revise_after_chain (state : list BaseMessage) (w : World)
  (m : AIMessage) (w1 : World) :
  chain revisor_chain state w = (Ok m, w1) ->
  (revise_answer chain cfg state w = (Ok m, w1) /\
   (VERBOSE cfg = false \/ first_call_ok has_answer m = true)) \/
  (revise_answer chain cfg state w = (Raise (KeyError "answer"), w1) /\
   VERBOSE cfg = true /\ first_call_ok has_answer m = false).
Proof.
  intros E.
  unfold revise_answer, display_info, first_call_ok, has_answer,
    subscript, bind, ret, raise.
  rewrite E.
  destruct (VERBOSE cfg); [|auto].
  destruct (tool_calls m) as [|tc ?]; [auto|].
  destruct (answer (args tc)); auto.
Qed.

Lemma generate_chain_raises (messages : list BaseMessage) (w : World)
  (e : PyExc) (w1 : World) :
  chain initial_chain messages w = (Raise e, w1) ->
  generate_initial_response chain cfg messages w = (Raise e, w1).
Proof.
  intros E. unfold generate_initial_response, bind. now rewrite E.
Qed.

(** X6.  [generate_initial_response] calls the initial chain once on its
    messages.  It returns the response exactly when the chain does and
    either [VERBOSE] is off or the first tool call of the response, if
    any, has the keys that the prints read: [answer], [reflection] with
    its [missing], and [search_queries].  When it raises, it is the
    exception of the chain, or, on a response the chain did return, the
    [KeyError] of the first of these keys that is not there. *)
Theorem X6_generate_initial_response_outcome (messages : list BaseMessage)
  (w : World) :
  (forall m w1,
     generate_initial_response chain cfg messages w = (Ok m, w1) <->
     chain initial_chain messages w = (Ok m, w1) /\
     (VERBOSE cfg = false \/ first_call_ok complete m = true)) /\
  (forall e w1,
     generate_initial_response chain cfg messages w = (Raise e, w1) ->
     chain initial_chain messages w = (Raise e, w1) \/
     exists m tc rest key,
       chain initial_chain messages w = (Ok m, w1) /\
       VERBOSE cfg = true /\
       tool_calls m = tc :: rest /\
       first_key_not_printed (args tc) = Some key /\
       e = KeyError key).
Proof.
  split.
  - intros m w1. split.
    + intros H. pose proof (generate_initial_response_Ok _ _ _ _ H) as E.
      split; [exact E|].
      destruct (generate_after_chain E)
        as [[_ D]|[tc [rest [key [_ [_ [F _]]]]]]];
        [exact D | congruence].
    + intros [E D].
      destruct (generate_after_chain E)
        as [[F _]|[tc [rest [key [_ [_ [_ [V N]]]]]]]];
        [exact F|].
      destruct D; congruence.
  - intros e w1 H.
    destruct (chain initial_chain messages w) as [[m|e'] w'] eqn:E.
    + right. exists m.
      destruct (generate_after_chain E)
        as [[F _]|[tc [rest [key [Et [Ek [F [V N]]]]]]]];
        [congruence|].
      rewrite F in H. inversion H; subst. exists tc, rest, key. auto.
    + left. rewrite (generate_chain_raises E) in H. exact H.
Qed.

(** X7.  [revise_answer] returns the response of the revisor chain exactly
    when the chain returns it and either [VERBOSE] is off or the first
    tool call of the response, if any, has the key [answer]: a revised
    record without [references], [reflection] or [search_queries] is
    returned all the same. *)
Theorem X7_revise_answer_outcome (state : list BaseMessage) (w : World)
  (m : AIMessage) (w1 : World) :
  revise_answer chain cfg state w = (Ok m, w1) <->
  chain revisor_chain state w = (Ok m, w1) /\
  (VERBOSE cfg = false \/ first_call_ok has_answer m = true).
Proof.
  split.
  - intros H. pose proof (revise_answer_Ok _ _ _ _ H) as E.
    split; [exact E|].
    destruct (revise_after_chain E) as [[_ D]|[F _]];
      [exact D | congruence].
  - intros [E D].
    destruct (revise_after_chain E) as [[F _]|[_ [V N]]]; [exact F|].
    destruct D; congruence.
Qed.

(* ---------------------------------------------------------------------- *)
(** *** The shape of the history *)

Lemma flat_map_group_cons (r : list ToolMessage * AIMessage)
  (rounds : list (list ToolMessage * AIMessage)) :
  flat_map group (r :: rounds)
  = (map Tool (fst r) ++ [AI (snd r)] ++ flat_map group rounds)%list.
Proof. simpl. unfold group. now rewrite <- app_assoc. Qed.

Lemma no_Human_in_groups (rounds : list (list ToolMessage * AIMessage)) :
  filter isinstance_HumanMessage (flat_map group rounds) = [].
Proof.
  induction rounds as [|r rounds IH]; [reflexivity|].
  rewrite flat_map_group_cons, !filter_app, IH. simpl.
  rewrite app_nil_r. induction (fst r) as [|t l IHl]; simpl; auto.
Qed.

(** The rounds of a run that ends normally, from a research step on. *)
Lemma run_rounds_linked (fuel : nat) :
  forall st previous w final w',
    run fuel execute_tools_node (st ++ [AI previous]) w
    = Some (Ok final, w') ->
    exists rounds,
      final = ((st ++ [AI previous]) ++ flat_map group rounds)%list /\
      rounds <> [] /\
      well_linked previous rounds /\
      (forall k, 0 < k < List.length rounds ->
         (tool_count ((st ++ [AI previous])
                      ++ flat_map group (firstn k rounds))
          < MAX_ITERATIONS cfg)%Z).
Proof.
  induction fuel as [fuel IH] using lt_wf_ind.
  intros st previous w final w' H.
  apply run_round in H as [fuel' [tms [m [w1 [w2 [-> [Ex [Er H]]]]]]]].
  destruct (execute_tools_ids search cfg _ _ Ex) as [h [m' [Eh Ids]]].
  apply app_inj_tail in Eh as [_ Em]. inversion Em; subst m'.
  unfold should_continue in H.
  destruct (Z.leb_spec (MAX_ITERATIONS cfg)
              (tool_count (((st ++ [AI previous]) ++ map Tool tms)
                           ++ [AI m]))) as [Hle|Hlt].
  - rewrite run_END in H. inversion H; subst.
    exists [(tms, m)]. split; [same_list|].
    split; [discriminate|]. split; [simpl; auto|].
    intros k [? ?]. simpl in *. lia.
  - apply IH in H as [rounds [E [_ [WL Min]]]]; [|lia].
    exists ((tms, m) :: rounds). split; [rewrite E; same_list|].
    split; [discriminate|]. split; [simpl; auto|].
    intros k [Hk1 Hk2]. destruct k as [|[|k]]; [lia| |].
    + match goal with
      | |- (tool_count ?l < _)%Z =>
          replace l
            with (((st ++ [AI previous]) ++ map Tool tms) ++ [AI m])%list
            by same_list
      end.
      exact Hlt.
    + match goal with
      | |- (tool_count ?l < _)%Z =>
          replace l
            with ((((st ++ [AI previous]) ++ map Tool tms) ++ [AI m])
                  ++ flat_map group (firstn (S k) rounds))%list
            by same_list
      end.
      apply Min. simpl in Hk2. lia.
Qed.

Lemma invoke_generate (fuel : nat) (init final : list BaseMessage)
  (w w' : World) :
  invoke search chain cfg fuel init w = Some (Ok final, w') ->
  exists fuel' m0 w1,
    fuel = S fuel' /\
    chain initial_chain init w = (Ok m0, w1) /\
    run fuel' execute_tools_node (init ++ [AI m0]) w1 = Some (Ok final, w').
Proof.
  unfold invoke. destruct fuel as [|fuel]; [discriminate|].
  rewrite run_generate.
  destruct (generate_initial_response chain cfg init w)
    as [[m0|e] w1] eqn:E; [|discriminate].
  apply generate_initial_response_Ok in E.
  intros H. exists fuel, m0, w1. auto.
Qed.

Lemma invoke_shape (fuel : nat) (init final : list BaseMessage)
  (w w' : World) :
  invoke search chain cfg fuel init w = Some (Ok final, w') ->
  exists m0 w1 rounds,
    chain initial_chain init w = (Ok m0, w1) /\
    final = (init ++ AI m0 :: flat_map group rounds)%list /\
    rounds <> [] /\
    well_linked m0 rounds /\
    (exists before m_last, final = (before ++ [AI m_last])%list).
Proof.
  intros H.
  apply invoke_generate in H as [fuel' [m0 [w1 [-> [E0 H]]]]].
  apply run_rounds_linked in H as [rounds [E [NE [WL _]]]].
  exists m0, w1, rounds.
  assert (E' : final = (init ++ AI m0 :: flat_map group rounds)%list)
    by (rewrite E, <- app_assoc; reflexivity).
  split; [exact E0|]. split; [exact E'|]. split; [exact NE|].
  split; [exact WL|].
  destruct (exists_last NE) as [rs [r Er]].
  exists (init ++ AI m0 :: flat_map group rs ++ map Tool (fst r))%list,
    (snd r).
  rewrite E', Er, flat_map_app. same_list.
Qed.

(** X8.  The history of a run that ends normally is the input, the first
    response of the language model, and one or more rounds, each the
    ToolMessages of a research step followed by a revised response.  The
    ToolMessages of a round answer the handled calls of the response just
    before the round, by their ids and in their order.  So the history
    ends with an AI message, and the loop adds no Human message. *)
Theorem X8_history_shape (fuel : nat) (init final : list BaseMessage)
  (w w' : World) :
  invoke search chain cfg fuel init w = Some (Ok final, w') ->
  exists m0 w1 rounds,
    chain initial_chain init w = (Ok m0, w1) /\
    final = (init ++ AI m0 :: flat_map group rounds)%list /\
    rounds <> [] /\
    well_linked m0 rounds /\
    (exists before m_last, final = (before ++ [AI m_last])%list) /\
    filter isinstance_HumanMessage final
    = filter isinstance_HumanMessage init.
Proof.
  intros H.
  destruct (invoke_shape _ _ _ H) as [m0 [w1 [rounds [E0 [E [NE [WL L]]]]]]].
  exists m0, w1, rounds. repeat (split; [assumption|]).
  rewrite E, filter_app. simpl.
  now rewrite no_Human_in_groups, app_nil_r.
Qed.

(** X9.  The loop stops at the first continuation check that finds
    MAX_ITERATIONS ToolMessages or more: after every round but the last,
    the history held fewer than MAX_ITERATIONS of them, and at the end
    it holds MAX_ITERATIONS or more. *)
Theorem X9_no_round_after_the_limit (fuel : nat)
  (init final : list BaseMessage) (w w' : World) :
  invoke search chain cfg fuel init w = Some (Ok final, w') ->
  exists m0 rounds,
    final = (init ++ AI m0 :: flat_map group rounds)%list /\
    (MAX_ITERATIONS cfg <= tool_count final)%Z /\
    forall k, 0 < k < List.length rounds ->
      (tool_count (init ++ AI m0 :: flat_map group (firstn k rounds))
       < MAX_ITERATIONS cfg)%Z.
Proof.
  intros H.
  assert (Hmax : (MAX_ITERATIONS cfg <= tool_count final)%Z).
  { unfold invoke in H. eapply run_reaches_max; [eassumption|discriminate]. }
  apply invoke_generate in H as [fuel' [m0 [w1 [-> [E0 H]]]]].
  apply run_rounds_linked in H as [rounds [E [_ [_ Min]]]].
  exists m0, rounds.
  split; [rewrite E, <- app_assoc; reflexivity|]. split; [exact Hmax|].
  intros k Hk. specialize (Min k Hk).
  now rewrite <- app_assoc in Min.
Qed.

(* ---------------------------------------------------------------------- *)
(** *** Runs that complete *)

Lemma search_all_absorbed (queries : list string) :
  (forall q w, absorbed (fst (search q w)) = true) ->
  forall w, forallb absorbed (fst (search_all search queries w)) = true.
Proof.
  intros H. induction queries as [|q queries IH]; intros w; simpl;
    [reflexivity|].
  specialize (H q w). destruct (search q w) as [o w1].
  specialize (IH w1). destruct (search_all search queries w1) as [os w2].
  simpl in *. now rewrite H, IH.
Qed.

Lemma for_tool_calls_total (calls : list ToolCall) :
  (forall q w, absorbed (fst (search q w)) = true) ->
  forall l w, exists l' w',
    for_tool_calls search cfg calls l w = (Ok l', w').
Proof.
  intros H. induction calls as [|tc calls IH]; intros l w; simpl.
  - unfold ret. eauto.
  - destruct (handled tc); [|apply IH].
    unfold bind.
    rewrite for_queries_absorbed by (apply search_all_absorbed; exact H).
    apply IH.
Qed.

Lemma execute_tools_total (st : list BaseMessage) (m : AIMessage) (w : World) :
  (forall q w, absorbed (fst (search q w)) = true) ->
  handled_calls m = 1 ->
  exists t w1,
    execute_tools search cfg (st ++ [AI m]) w = (Ok [t], w1).
Proof.
  intros H Hc.
  assert (exists tms w1,
             execute_tools search cfg (st ++ [AI m]) w = (Ok tms, w1))
    as [tms [w1 E]].
  { unfold execute_tools. rewrite last_message_app. unfold bind.
    destruct (for_tool_calls_total (tool_calls m) H
                {| tool_messages := []; search_queries_var := None |} w)
      as [l [w1 E]].
    rewrite E. destruct (VERBOSE cfg); [|unfold ret; eauto].
    destruct (search_queries_var l) eqn:Eq; [unfold ret; eauto|].
    exfalso. apply for_tool_calls_Ok in E as [_ [E _]].
    destruct (E Eq) as [_ F]. unfold handled_calls in Hc.
    rewrite F in Hc. discriminate. }
  pose proof (execute_tools_Ok _ _ _ _ E) as [h [m' [Eh [L _]]]].
  apply app_inj_tail in Eh as [_ Em]. inversion Em; subst m'.
  rewrite Hc in L. destruct tms as [|t [|? ?]]; try discriminate. eauto.
Qed.

Lemma well_formed_one_call (m : AIMessage) :
  well_formed m = true -> handled_calls m = 1.
Proof.
  unfold well_formed. intros H. apply andb_prop in H as [H _].
  now apply Nat.eqb_eq.
Qed.

Lemma well_formed_complete (m : AIMessage) :
  well_formed m = true -> first_call_ok complete m = true.
Proof. unfold well_formed. intros H. now apply andb_prop in H as [_ H]. Qed.

Lemma complete_has_answer (m : AIMessage) :
  first_call_ok complete m = true -> first_call_ok has_answer m = true.
Proof.
  unfold first_call_ok, complete, first_key_not_printed, has_answer.
  destruct (tool_calls m) as [|tc ?]; [auto|].
  destruct (answer (args tc)); [auto | discriminate].
Qed.

Lemma obeys_well_formed (c : Chain) (m : AIMessage) :
  obeys c m = true -> well_formed m = true.
Proof. unfold obeys. intros H. now apply andb_prop in H as [H _]. Qed.

(** From a research step on, when no search escapes and the language model
    obeys: the rounds left are run to the end. *)
Lemma run_rounds_complete :
  (forall q w, absorbed (fst (search q w)) = true) ->
  (forall c h w, exists m w', chain c h w = (Ok m, w') /\ obeys c m = true) ->
  forall n fuel st previous w,
    well_formed previous = true ->
    Z.to_nat (Z.max 1 (MAX_ITERATIONS cfg - tool_count (st ++ [AI previous])))
    <= n ->
    2 * n <= fuel ->
    exists rounds w',
      run fuel execute_tools_node (st ++ [AI previous]) w
      = Some (Ok ((st ++ [AI previous]) ++ flat_map round rounds)%list, w') /\
      Z.of_nat (List.length rounds)
      = Z.max 1 (MAX_ITERATIONS cfg - tool_count (st ++ [AI previous])) /\
      rounds <> [] /\
      Forall (fun r => obeys revisor_chain (snd r) = true) rounds.
Proof.
  intros H1 H2. induction n as [|n IH]; intros fuel st previous w Hp Hn Hf;
    [lia|].
  destruct fuel as [|[|fuel]]; try lia.
  destruct (execute_tools_total st previous w H1 (well_formed_one_call _ Hp))
    as [t [w1 Ex]].
  rewrite run_execute_tools, Ex. cbn [map].
  destruct (H2 revisor_chain ((st ++ [AI previous]) ++ [Tool t])%list w1)
    as [m [w2 [Er Ho]]].
  pose proof (obeys_well_formed _ _ Ho) as Hw.
  assert (Rv : revise_answer chain cfg ((st ++ [AI previous]) ++ [Tool t]) w1
               = (Ok m, w2)).
  { destruct (revise_after_chain Er) as [[F _]|[_ [_ N]]]; [exact F|].
    rewrite (complete_has_answer _ (well_formed_complete _ Hw)) in N.
    discriminate. }
  rewrite run_revise, Rv. unfold should_continue.
  assert (Ec : tool_count (((st ++ [AI previous]) ++ [Tool t]) ++ [AI m])
               = (tool_count (st ++ [AI previous]) + 1)%Z).
  { rewrite !tool_count_app.
    change (tool_count [Tool t]) with 1%Z.
    change (tool_count [AI m]) with 0%Z. lia. }
  destruct (Z.leb_spec (MAX_ITERATIONS cfg)
              (tool_count (((st ++ [AI previous]) ++ [Tool t]) ++ [AI m])))
    as [Hle|Hlt].
  - rewrite run_END. exists [(t, m)], w2.
    split; [do 3 f_equal; cbn [flat_map round fst snd];
            now rewrite app_nil_r, <- !app_assoc|].
    split; [simpl List.length; lia|]. split; [discriminate|].
    constructor; [exact Ho | constructor].
  - destruct (IH fuel ((st ++ [AI previous]) ++ [Tool t])%list m w2 Hw)
      as [rounds [w' [E [L [_ F]]]]]; [lia | lia |].
    exists ((t, m) :: rounds), w'.
    split.
    { rewrite E. do 3 f_equal. cbn [flat_map round fst snd].
      now rewrite <- !app_assoc. }
    split; [simpl List.length; lia|]. split; [discriminate|].
    constructor; [exact Ho | exact F].
Qed.

(** The run of the whole graph under the same conditions. *)
Lemma invoke_completes (question : string) (w : World) (fuel : nat) :
  (forall q w, absorbed (fst (search q w)) = true) ->
  (forall c h w, exists m w', chain c h w = (Ok m, w') /\ obeys c m = true) ->
  enough_fuel cfg <= fuel ->
  exists m0 w1 rounds w',
    chain initial_chain [Human question] w = (Ok m0, w1) /\
    obeys initial_chain m0 = true /\
    invoke search chain cfg fuel [Human question] w
    = Some (Ok ([Human question; AI m0] ++ flat_map round rounds)%list, w') /\
    Z.of_nat (List.length rounds) = Z.max 1 (MAX_ITERATIONS cfg) /\
    rounds <> [] /\
    Forall (fun r => obeys revisor_chain (snd r) = true) rounds.
Proof.
  intros H1 H2 Hf. unfold enough_fuel in Hf.
  destruct fuel as [|fuel]; [lia|].
  destruct (H2 initial_chain [Human question] w) as [m0 [w1 [E0 Ho]]].
  pose proof (obeys_well_formed _ _ Ho) as Hw.
  assert (G : generate_initial_response chain cfg [Human question] w
              = (Ok m0, w1)).
  { destruct (generate_after_chain E0)
      as [[F _]|[tc [rest [key [_ [_ [_ [_ N]]]]]]]]; [exact F|].
    rewrite (well_formed_complete _ Hw) in N. discriminate. }
  destruct (run_rounds_complete H1 H2
              (n := Z.to_nat (Z.max 1 (MAX_ITERATIONS cfg))) (fuel := fuel)
              [Human question] m0 w1 Hw)
    as [rounds [w' [E [L [NE F]]]]].
  { change (tool_count ([Human question] ++ [AI m0])) with 0%Z. lia. }
  { lia. }
  change (tool_count ([Human question] ++ [AI m0])) with 0%Z in L.
  rewrite Z.sub_0_r in L.
  exists m0, w1, rounds, w'. unfold invoke.
  rewrite run_generate, G. auto 10.
Qed.

(** X10.  Failing searches never fail the run.  When every failure of the
    search is an instance of [Exception] and the language model answers
    every call with a response that obeys its [tool_choice], a run given
    [1 + 2 * max 1 MAX_ITERATIONS] nodes or more ends normally, with the
    question, the first answer and [max 1 MAX_ITERATIONS] rounds of one
    ToolMessage and one revised answer. *)
Theorem X10_failing_searches_never_fail_the_run (question : string)
  (w : World) (fuel : nat) :
  (forall q w, absorbed (fst (search q w)) = true) ->
  (forall c h w, exists m w', chain c h w = (Ok m, w') /\ obeys c m = true) ->
  enough_fuel cfg <= fuel ->
  exists m0 rounds w',
    invoke search chain cfg fuel [Human question] w
    = Some (Ok ([Human question; AI m0] ++ flat_map round rounds)%list, w') /\
    Z.of_nat (List.length rounds) = Z.max 1 (MAX_ITERATIONS cfg) /\
    tool_count ([Human question; AI m0] ++ flat_map round rounds)
    = Z.max 1 (MAX_ITERATIONS cfg).
Proof.
  intros H1 H2 Hf.
  destruct (invoke_completes question w H1 H2 Hf)
    as [m0 [w1 [rounds [w' [_ [_ [E [L _]]]]]]]].
  exists m0, rounds, w'. split; [exact E|]. split; [exact L|].
  rewrite tool_count_app, tool_count_rounds, L.
  change (tool_count [Human question; AI m0]) with 0%Z. lia.
Qed.

End LoopMore.

(* ====================================================================== *)
(** ** The entry point and what it extracts *)
(* ====================================================================== *)

Lemma first_some_Some {A B} (f : A -> option B) (l : list A) (b : B) :
  first_some f l = Some b <->
  exists before x after,
    l = (before ++ x :: after)%list /\ f x = Some b /\
    forall y, In y before -> f y = None.
Proof.
  induction l as [|x l IH]; simpl.
  - split; [discriminate|].
    intros [before [y [after [E _]]]]. destruct before; discriminate.
  - destruct (f x) as [b'|] eqn:Ex.
    + split.
      * intros H. inversion H; subst.
        exists [], x, l. repeat split; auto. intros y [].
      * intros [[|z before] [y [after [E [Ey N]]]]]; inversion E; subst.
        -- congruence.
        -- rewrite (N z) in Ex by (simpl; auto). discriminate.
    + rewrite IH. split.
      * intros [before [y [after [E [Ey N]]]]].
        exists (x :: before), y, after. subst l. repeat split; auto.
        intros z [<-|Hz]; auto.
      * intros [[|z before] [y [after [E [Ey N]]]]]; inversion E; subst.
        -- congruence.
        -- exists before, y, after. repeat split; auto.
           intros u Hu. apply N. simpl. auto.
Qed.

Lemma first_some_None {A B} (f : A -> option B) (l : list A) :
  first_some f l = None <-> forall x, In x l -> f x = None.
Proof.
  induction l as [|x l IH]; simpl; [tauto|].
  destruct (f x) as [b|] eqn:Ex.
  - split; [discriminate|]. intros H. rewrite <- Ex. apply H. auto.
  - rewrite IH. split.
    + intros H y [<-|Hy]; auto.
    + intros H y Hy. apply H. auto.
Qed.

(** X11.  [extract_initial_answer] gives the [args] of the first tool call
    of the first message that is an AI message whose first tool call is
    named AnswerQuestion, and [extract_final_answer] those of the last
    message whose first tool call is named ReviseAnswer; each gives [None]
    exactly when the history has no such message.  Tool calls after the
    first one of a message are not looked at. *)
Theorem X11_extract_first_and_last (messages : list BaseMessage) :
  (forall a,
     extract_initial_answer messages = Some a <->
     exists before msg after,
       messages = (before ++ msg :: after)%list /\
       first_call_named "AnswerQuestion" msg = Some a /\
       forall y, In y before -> first_call_named "AnswerQuestion" y = None) /\
  (forall a,
     extract_final_answer messages = Some a <->
     exists before msg after,
       messages = (before ++ msg :: after)%list /\
       first_call_named "ReviseAnswer" msg = Some a /\
       forall y, In y after -> first_call_named "ReviseAnswer" y = None) /\
  (extract_initial_answer messages = None <->
   forall msg, In msg messages ->
               first_call_named "AnswerQuestion" msg = None) /\
  (extract_final_answer messages = None <->
   forall msg, In msg messages ->
               first_call_named "ReviseAnswer" msg = None).
Proof.
  unfold extract_initial_answer, extract_final_answer.
  split; [intros a; apply first_some_Some|].
  split; [|split; [apply first_some_None|]].
  - intros a. rewrite first_some_Some. split.
    + intros [before [x [after [E [Ex N]]]]].
      exists (rev after), x, (rev before).
      split; [|split; [exact Ex|]].
      * rewrite <- (rev_involutive messages), E, rev_app_distr. simpl.
        now rewrite <- app_assoc.
      * intros y Hy. apply N. now apply in_rev in Hy.
    + intros [before [x [after [E [Ex N]]]]].
      exists (rev after), x, (rev before).
      split; [|split; [exact Ex|]].
      * rewrite E, rev_app_distr. simpl. now rewrite <- app_assoc.
      * intros y Hy. apply N. now apply in_rev.
  - rewrite first_some_None. split; intros H msg Hm; apply H.
    + now apply in_rev in Hm.
    + now apply in_rev.
Qed.

Section MainProps.

Variable World : Type.
Variable search : string -> M World string.
Variable chain : Chain -> list BaseMessage -> M World AIMessage.
Variable cfg : Config.
Variable limit_message : nat -> string.

Local Abbreviation agent := (Main.run_agent search chain cfg limit_message).

Lemma extract_final_last (before : list BaseMessage) (m : AIMessage)
  (a : Args) :
  first_call_named "ReviseAnswer" (AI m) = Some a ->
  extract_final_answer (before ++ [AI m]) = Some a.
Proof.
  intros H. unfold extract_final_answer. rewrite rev_app_distr.
  simpl rev. simpl app. unfold first_some. now rewrite H.
Qed.

Lemma extract_initial_second (question : string) (m0 : AIMessage)
  (rest : list BaseMessage) (a : Args) :
  first_call_named "AnswerQuestion" (AI m0) = Some a ->
  extract_initial_answer (Human question :: AI m0 :: rest) = Some a.
Proof.
  intros H. unfold extract_initial_answer. cbn [first_some].
  change (first_call_named "AnswerQuestion" (Human question)) with (@None Args).
  now rewrite H.
Qed.

(** X12.  After a run from the question that ends normally, the initial
    answer extracted is the first response of the language model when its
    first tool call is named AnswerQuestion, and the final answer extracted
    is the last message of the history, a response of the revisor chain
    to all the history before it, when its first tool call is named
    ReviseAnswer. *)
Theorem X12_extracted_answers_of_a_run (fuel : nat) (question : string)
  (w : World) (final : list BaseMessage) (w' : World) :
  invoke search chain cfg fuel [Human question] w = Some (Ok final, w') ->
  exists m0 before m_last w0 w1 w2,
    chain initial_chain [Human question] w = (Ok m0, w0) /\
    final = (before ++ [AI m_last])%list /\
    chain revisor_chain before w1 = (Ok m_last, w2) /\
    (forall a, first_call_named "AnswerQuestion" (AI m0) = Some a ->
               extract_initial_answer final = Some a) /\
    (forall a, first_call_named "ReviseAnswer" (AI m_last) = Some a ->
               extract_final_answer final = Some a).
Proof.
  intros H.
  destruct (invoke_shape _ _ _ _ _ _ H)
    as [m0 [w0 [rounds [E0 [E [NE [_ [before [m_last El]]]]]]]]].
  assert (L : 2 <= List.length before).
  { assert (3 <= List.length final).
    { rewrite E. destruct rounds as [|r rounds]; [contradiction|].
      rewrite flat_map_group_cons, !length_app. simpl.
      rewrite !length_app. simpl. lia. }
    rewrite El, length_app in H0. simpl in H0. lia. }
  apply invoke_Ok in H as [fuel' [m0' [w0' [-> [_ H]]]]].
  assert (exists w1 w2, chain revisor_chain before w1 = (Ok m_last, w2))
    as [w1 [w2 Er]].
  { eapply run_revised_from_history;
      [exact H | discriminate | exact El | simpl; lia]. }
  exists m0, before, m_last, w0, w1, w2.
  split; [exact E0|]. split; [exact El|]. split; [exact Er|]. split.
  - intros a Ha. rewrite E. now apply extract_initial_second.
  - intros a Ha. rewrite El. now apply extract_final_last.
Qed.

(* ---------------------------------------------------------------------- *)
(** *** [run_agent] *)

Lemma display_initial_shown (a : Args) (w : World) :
  first_key_not_shown a = None ->
  Main.display_initial_answer a w = (Ok tt, w).
Proof.
  unfold first_key_not_shown, Main.display_initial_answer, subscript, bind,
    ret, raise.
  destruct (answer a); [|discriminate].
  destruct (reflection a) as [r|]; [|discriminate].
  destruct (missing r); [|discriminate].
  destruct (superfluous r); [|discriminate].
  destruct (search_queries a); [reflexivity | discriminate].
Qed.

Lemma display_initial_not_shown (a : Args) (w : World) (key : string) :
  first_key_not_shown a = Some key ->
  Main.display_initial_answer a w = (Raise (KeyError key), w).
Proof.
  unfold first_key_not_shown, Main.display_initial_answer, subscript, bind,
    ret, raise.
  destruct (answer a); [|now intros H; inversion H].
  destruct (reflection a) as [r|]; [|now intros H; inversion H].
  destruct (missing r); [|now intros H; inversion H].
  destruct (superfluous r); [|now intros H; inversion H].
  destruct (search_queries a); [discriminate | now intros H; inversion H].
Qed.

Lemma display_final_has_answer (a : Args) (w : World) :
  has_answer a = true -> Main.display_final_answer a w = (Ok tt, w).
Proof.
  unfold has_answer, Main.display_final_answer, subscript, bind, ret, raise.
  destruct (answer a); [reflexivity | discriminate].
Qed.

Lemma has_answer_truthy (a : Args) :
  has_answer a = true -> Main.truthy (Some a) = true.
Proof.
  unfold has_answer, Main.truthy. destruct (answer a); [auto | discriminate].
Qed.

Lemma complete_answer (a : Args) : complete a = true -> has_answer a = true.
Proof.
  unfold complete, first_key_not_printed, has_answer.
  destruct (answer a); [auto | discriminate].
Qed.

Lemma shown_None (a : Args) :
  shown a = true -> first_key_not_shown a = None.
Proof.
  unfold shown. destruct (first_key_not_shown a); [discriminate | auto].
Qed.

Lemma conforms_obeys (c : Chain) (m : AIMessage) :
  conforms c m = true -> obeys c m = true.
Proof. unfold conforms. intros H. now apply andb_prop in H as [H _]. Qed.

Lemma conforms_shown (c : Chain) (m : AIMessage) :
  conforms c m = true -> first_call_ok shown m = true.
Proof. unfold conforms. intros H. now apply andb_prop in H as [_ H]. Qed.

Lemma first_call_ok_named (ok : Args -> bool) (nm : string) (m : AIMessage)
  (a : Args) :
  first_call_named nm (AI m) = Some a ->
  first_call_ok ok m = true -> ok a = true.
Proof.
  unfold first_call_named, first_call_ok.
  destruct (tool_calls m) as [|tc ?]; [discriminate|].
  destruct (String.eqb (name tc) nm); [|discriminate].
  intros H; inversion H; subst. auto.
Qed.

Lemma obeys_named (c : Chain) (m : AIMessage) :
  obeys c m = true ->
  exists a, first_call_named (schema_name (tool c)) (AI m) = Some a /\
            complete a = true.
Proof.
  unfold obeys. intros H. apply andb_prop in H as [Hw H].
  destruct (first_call_named (schema_name (tool c)) (AI m)) as [a|] eqn:E;
    [|discriminate].
  exists a. split; [reflexivity|].
  eapply first_call_ok_named; [exact E | apply well_formed_complete, Hw].
Qed.

Lemma length_rounds (rounds : list (ToolMessage * AIMessage)) :
  List.length (flat_map round rounds) = 2 * List.length rounds.
Proof.
  induction rounds as [|r rounds IH]; simpl; [reflexivity|]. rewrite IH. lia.
Qed.

(** X13.  [run_agent] lets no instance of [Exception] out: whatever the
    graph or the display raises, an exception that leaves [run_agent] is
    one that [except Exception] does not catch. *)
Theorem X13_run_agent_raises_no_Exception (fuel : nat) (question : string)
  (w : World) (e : PyExc) (w' : World) :
  agent fuel question w = Some (Raise e, w') ->
  isinstance_Exception e = false.
Proof.
  unfold Main.run_agent, try_except, Main.on_error, raise, ret.
  destruct (invoke search chain cfg fuel [Human question] w)
    as [[[msgs|e0] w1]|]; [| |discriminate].
  - destruct (Main.show_results question msgs w1) as [[r|e1] w2];
      [discriminate|].
    destruct (isinstance_Exception e1) eqn:Ei; [discriminate|].
    intros H; inversion H; subst. exact Ei.
  - destruct (isinstance_Exception e0) eqn:Ei; [discriminate|].
    intros H; inversion H; subst. exact Ei.
Qed.

(** X14.  When the first call of the language model fails with an
    exception, [run_agent] makes no other call and returns the error dict
    with the question and [str(e)]: no search is made and nothing of the
    run is kept. *)
Theorem X14_run_agent_reports_a_failed_model (fuel : nat)
  (question : string) (w : World) (e : PyExc) (w1 : World) :
  chain initial_chain [Human question] w = (Raise e, w1) ->
  isinstance_Exception e = true ->
  agent (S fuel) question w = Some (Ok (Main.Error question (str e)), w1).
Proof.
  intros E He. unfold Main.run_agent, invoke.
  rewrite run_generate, (generate_chain_raises chain cfg _ _ E).
  unfold try_except, raise, Main.on_error, ret. now rewrite He.
Qed.

(** X15.  When every failure of the search is an instance of [Exception]
    and the language model answers every call with a response that obeys
    its [tool_choice] and has the keys the display reads, [run_agent]
    given enough nodes returns the dict of a run that ended: the question,
    as initial answer the [args] of the first tool call of the first
    response of the language model, as final answer those of the first
    tool call of the last message of the history of the run, and
    [2 + 2 * max 1 MAX_ITERATIONS] messages (6 with the value of
    [config.py]). *)
Theorem X15_run_agent_answers (fuel : nat) (question : string) (w : World) :
  (forall q w, absorbed (fst (search q w)) = true) ->
  (forall c h w,
     exists m w', chain c h w = (Ok m, w') /\ conforms c m = true) ->
  enough_fuel cfg <= fuel ->
  exists m0 w1 a0 before m_last al w',
    chain initial_chain [Human question] w = (Ok m0, w1) /\
    first_call_named "AnswerQuestion" (AI m0) = Some a0 /\
    invoke search chain cfg fuel [Human question] w
    = Some (Ok (before ++ [AI m_last])%list, w') /\
    first_call_named "ReviseAnswer" (AI m_last) = Some al /\
    agent fuel question w
    = Some (Ok (Main.Answers question (Some a0) (Some al)
                  (2 + 2 * Z.to_nat (Z.max 1 (MAX_ITERATIONS cfg)))), w').
Proof.
  intros H1 H2 Hf.
  assert (H2' : forall c h w,
             exists m w', chain c h w = (Ok m, w') /\ obeys c m = true).
  { intros c h w0. destruct (H2 c h w0) as [m [w' [E C]]].
    exists m, w'. split; [exact E | now apply conforms_obeys]. }
  destruct (invoke_completes search chain question w H1 H2' Hf)
    as [m0 [w1 [rounds [w' [E0 [Ho0 [E [L [NE F]]]]]]]]].
  destruct (obeys_named _ _ Ho0) as [a0 [Ha0 Ca0]].
  assert (Sa0 : first_key_not_shown a0 = None).
  { destruct (H2 initial_chain [Human question] w) as [m [w2 [Em C]]].
    rewrite E0 in Em. inversion Em; subst m.
    apply shown_None.
    eapply first_call_ok_named; [exact Ha0 | now apply conforms_shown in C]. }
  destruct (exists_last NE) as [rs [r Er]].
  assert (Hor : obeys revisor_chain (snd r) = true).
  { rewrite Forall_forall in F. apply F. rewrite Er, in_app_iff.
    simpl. auto. }
  destruct (obeys_named _ _ Hor) as [al [Hal Cal]].
  assert (Eh : ([Human question; AI m0] ++ flat_map round rounds)%list
               = (([Human question; AI m0] ++ flat_map round rs
                   ++ [Tool (fst r)]) ++ [AI (snd r)])%list).
  { rewrite Er, flat_map_app. simpl. now rewrite <- !app_assoc. }
  exists m0, w1, a0,
    ([Human question; AI m0] ++ flat_map round rs ++ [Tool (fst r)])%list,
    (snd r), al, w'.
  split; [exact E0|]. split; [exact Ha0|].
  split; [rewrite <- Eh; exact E|]. split; [exact Hal|].
  unfold Main.run_agent. rewrite E.
  assert (Ei : extract_initial_answer
                 ([Human question; AI m0] ++ flat_map round rounds)
               = Some a0) by (now apply extract_initial_second).
  assert (Ef : extract_final_answer
                 ([Human question; AI m0] ++ flat_map round rounds)
               = Some al)
    by (rewrite Eh; now apply extract_final_last).
  unfold try_except, Main.show_results. rewrite Ei, Ef.
  rewrite (has_answer_truthy _ (complete_answer _ Ca0)).
  rewrite (has_answer_truthy _ (complete_answer _ Cal)).
  unfold bind. rewrite display_initial_shown by exact Sa0.
  rewrite display_final_has_answer by (now apply complete_answer).
  unfold ret. do 4 f_equal.
  rewrite length_app, length_rounds. simpl List.length. lia.
Qed.

(** X16.  The answers of a run that ended are lost when the initial answer
    lacks a key that the display reads: [run_agent] then returns the error
    dict of the [KeyError], with, in quotes, the name of the first key
    that is not there, in the order of the prints: [answer],
    [reflection], its [missing], its [superfluous], [search_queries]. *)
Theorem X16_run_agent_loses_the_answers (fuel : nat) (question : string)
  (w : World) (final : list BaseMessage) (w1 : World) (initial : Args)
  (key : string) :
  invoke search chain cfg fuel [Human question] w = Some (Ok final, w1) ->
  extract_initial_answer final = Some initial ->
  Main.truthy (Some initial) = true ->
  first_key_not_shown initial = Some key ->
  agent fuel question w
  = Some (Ok (Main.Error question ("'" ++ key ++ "'")), w1).
Proof.
  intros H Hi Ht Hk.
  pose proof (display_initial_not_shown initial w1 Hk) as E.
  unfold Main.run_agent. rewrite H.
  unfold try_except, Main.show_results. rewrite Hi, Ht.
  unfold bind at 1. rewrite E. reflexivity.
Qed.

(** The world in which a run stops is the one its result comes with. *)
Lemma world_reached_run_from (fuel : nat) :
  forall (n : Node) (state : list BaseMessage) (w : World)
         (r : result (list BaseMessage)) (w' : World),
    run_from search chain cfg fuel n state w = Some (r, w') ->
    Main.world_reached search chain cfg fuel n state w = w'.
Proof.
  induction fuel as [|fuel IH]; intros n state w r w' H.
  - destruct n; simpl in *; try discriminate.
    now inversion H.
  - destruct n; cbn [run_from Main.world_reached] in *.
    4: now inversion H.
    all: destruct (run_node search chain cfg _ state w) as [[out|e] w1];
      [eapply IH; eassumption | now inversion H].
Qed.



End MainProps.

(* ====================================================================== *)
(** ** More concrete runs *)
(* ====================================================================== *)

Lemma X1_tool_messages_answer_handled_calls_witness :
  research config mixed_reply (world_answers [])
  = (Ok [{| content := json_dumps [("what is X", "snippet-1")];
            tool_call_id := "call_0" |};
         {| content := json_dumps [("X history", "snippet-1")];
            tool_call_id := "call_1" |}], world_answers []) /\
  map id (filter handled (tool_calls mixed_reply)) = ["call_0"; "call_1"] /\
  exists h m,
    (question_X ++ [AI mixed_reply])%list = (h ++ [AI m])%list /\
    ["call_0"; "call_1"] = map id (filter handled (tool_calls m)) /\
    2 = handled_calls m.
Proof.
  split; [reflexivity|]. split; [reflexivity|].
  apply (X1_tool_messages_answer_handled_calls scripted_search config
           (question_X ++ [AI mixed_reply]) (world_answers [])
           (tms := [{| content := json_dumps [("what is X", "snippet-1")];
                       tool_call_id := "call_0" |};
                    {| content := json_dumps [("X history", "snippet-1")];
                       tool_call_id := "call_1" |}])
           (w' := world_answers [])).
  reflexivity.
Defined.

Lemma X2_no_queries_no_search_witness :
  search_queries (args (the_call queryless_reply)) = None /\
  research config queryless_reply (world_searches [Ok "unused"])
  = (Ok [{| content := "{}"; tool_call_id := "call_0" |}],
     world_searches [Ok "unused"]).
Proof.
  split; [reflexivity|].
  apply (X2_no_queries_no_search scripted_search config question_X
           queryless_reply (world_searches [Ok "unused"]) eq_refl eq_refl).
  left. reflexivity.
Defined.

Lemma X3_base_exception_aborts_the_batch_witness :
  isinstance_Exception interrupt = false /\
  research config three_queries_reply
    (world_searches [Ok "one"; Raise interrupt; Ok "three"])
  = (Raise interrupt, world_searches [Ok "three"]).
Proof.
  split; [reflexivity|].
  apply (X3_base_exception_aborts_the_batch scripted_search config
           question_X three_queries_reply
           (world_searches [Ok "one"; Raise interrupt; Ok "three"])
           ["a"] ["c"] "b" eq_refl eq_refl eq_refl eq_refl eq_refl eq_refl).
Defined.

Lemma X4_verbose_changes_nothing_with_a_handled_call_witness :
  existsb handled (tool_calls initial_reply) = true /\
  research config initial_reply (world_searches [Raise boom])
  = research (config_with 7 false) initial_reply (world_searches [Raise boom]).
Proof.
  split; [reflexivity|].
  apply (X4_verbose_changes_nothing_with_a_handled_call scripted_search
           config (config_with 7 false) question_X initial_reply
           (world_searches [Raise boom]) eq_refl eq_refl).
Defined.

Lemma X5_should_continue_stable_witness :
  should_continue (config_with 1 true) history_one_round = END /\
  should_continue (config_with 1 true)
    (history_one_round
     ++ [found "call_1" [("X history", "snippet-1")]; AI revised_reply])
  = END /\
  should_continue config (history_one_round ++ [AI revised_reply])
  = should_continue config history_one_round.
Proof.
  split; [reflexivity|]. split.
  - destruct (X5_should_continue_stable (config_with 1 true)
                history_one_round
                [found "call_1" [("X history", "snippet-1")];
                 AI revised_reply]) as [A _].
    apply A. reflexivity.
  - destruct (X5_should_continue_stable config history_one_round
                [AI revised_reply]) as [_ B].
    apply B. reflexivity.
Defined.

Lemma X6_generate_initial_response_outcome_witness :
  generate_initial_response scripted_chain (config_with 2 false) question_X
    (world_answers [hollow_reply])
  = (Ok hollow_reply, world_answers []) /\
  generate_initial_response scripted_chain config question_X
    (world_answers [hollow_reply])
  = (Raise (KeyError "missing"), world_answers []) /\
  exists m tc rest key,
    scripted_chain initial_chain question_X (world_answers [hollow_reply])
    = (Ok m, world_answers []) /\
    VERBOSE config = true /\
    tool_calls m = tc :: rest /\
    first_key_not_printed (args tc) = Some key /\
    KeyError "missing" = KeyError key.
Proof.
  split.
  - apply (X6_generate_initial_response_outcome scripted_chain
             (config_with 2 false) question_X
             (world_answers [hollow_reply])).
    split; [reflexivity | left; reflexivity].
  - split; [reflexivity|].
    destruct (X6_generate_initial_response_outcome scripted_chain config
                question_X (world_answers [hollow_reply])) as [_ R].
    destruct (R (KeyError "missing") (world_answers []) eq_refl)
      as [F|G]; [discriminate | exact G].
Defined.

Lemma X7_revise_answer_outcome_witness :
  first_call_ok has_answer queryless_reply = true /\
  revise_answer scripted_chain config question_X
    (world_answers [queryless_reply])
  = (Ok queryless_reply, world_answers []).
Proof.
  split; [reflexivity|].
  apply (X7_revise_answer_outcome scripted_chain config question_X
           (world_answers [queryless_reply])).
  split; [reflexivity | right; reflexivity].
Defined.

Lemma X8_history_shape_witness :
  run_agent config 5
    (world_answers [initial_reply; revised_reply; revised_reply])
  = Some (Ok history_two_rounds, world_answers []) /\
  exists m0 rounds,
    history_two_rounds = (question_X ++ AI m0 :: flat_map group rounds)%list /\
    well_linked m0 rounds /\
    filter isinstance_HumanMessage history_two_rounds = question_X.
Proof.
  split; [reflexivity|].
  destruct (X8_history_shape scripted_search scripted_chain config 5
              question_X
              (world_answers [initial_reply; revised_reply; revised_reply])
              eq_refl)
    as [m0 [w1 [rounds [_ [E [_ [WL [_ F]]]]]]]].
  exists m0, rounds. auto.
Defined.

Lemma X9_no_round_after_the_limit_witness :
  exists m0 rounds,
    history_two_rounds = (question_X ++ AI m0 :: flat_map group rounds)%list /\
    (MAX_ITERATIONS config <= tool_count history_two_rounds)%Z /\
    forall k, 0 < k < List.length rounds ->
      (tool_count (question_X ++ AI m0 :: flat_map group (firstn k rounds))
       < MAX_ITERATIONS config)%Z.
Proof.
  apply (X9_no_round_after_the_limit scripted_search scripted_chain config 5
           question_X
           (world_answers [initial_reply; revised_reply; revised_reply])
           (w' := world_answers [])).
  reflexivity.
Defined.

Lemma steady_chain_obeys :
  forall c h w, exists m w',
    steady_chain c h w = (Ok m, w') /\ obeys c m = true.
Proof.
  intros [p [|]] h w; eexists; eexists; split; reflexivity.
Defined.

Lemma steady_chain_conforms :
  forall c h w, exists m w',
    steady_chain c h w = (Ok m, w') /\ conforms c m = true.
Proof.
  intros [p [|]] h w; eexists; eexists; split; reflexivity.
Defined.

Lemma X10_failing_searches_never_fail_the_run_witness :
  (forall q w, absorbed (fst (search_down q w)) = true) /\
  enough_fuel config <= 5 /\
  exists m0 rounds,
    invoke search_down steady_chain config 5 question_X tt
    = Some (Ok (question_X ++ AI m0 :: flat_map round rounds)%list, tt) /\
    Z.of_nat (List.length rounds) = 2%Z.
Proof.
  split; [intros q w; reflexivity|]. split; [vm_compute; lia|].
  destruct (X10_failing_searches_never_fail_the_run search_down steady_chain
              (cfg := config) "What is X?" tt (fuel := 5)
              (fun q w => eq_refl) steady_chain_obeys)
    as [m0 [rounds [[] [E [L _]]]]]; [vm_compute; lia|].
  exists m0, rounds. split; [exact E | exact L].
Defined.

Lemma X11_extract_first_and_last_witness :
  extract_final_answer history_two_rounds
  = Some (args (the_call revised_reply)) /\
  exists before msg after,
    history_two_rounds = (before ++ msg :: after)%list /\
    first_call_named "ReviseAnswer" msg = Some (args (the_call revised_reply)) /\
    forall y, In y after -> first_call_named "ReviseAnswer" y = None.
Proof.
  split; [reflexivity|].
  destruct (X11_extract_first_and_last history_two_rounds) as [_ [F _]].
  apply F. reflexivity.
Defined.

Lemma X12_extracted_answers_of_a_run_witness :
  run_agent config 5
    (world_answers [initial_reply; revised_reply; revised_reply])
  = Some (Ok history_two_rounds, world_answers []) /\
  exists m0 m_last,
    (first_call_named "AnswerQuestion" (AI m0)
     = Some (args (the_call initial_reply)) ->
     extract_initial_answer history_two_rounds
     = Some (args (the_call initial_reply))) /\
    (first_call_named "ReviseAnswer" (AI m_last)
     = Some (args (the_call revised_reply)) ->
     extract_final_answer history_two_rounds
     = Some (args (the_call revised_reply))).
Proof.
  split; [reflexivity|].
  destruct (X12_extracted_answers_of_a_run scripted_search scripted_chain
              config 5 "What is X?"
              (world_answers [initial_reply; revised_reply; revised_reply])
              eq_refl)
    as [m0 [before [m_last [w0 [w1 [w2 [_ [_ [_ [I F]]]]]]]]]].
  exists m0, m_last. split; [apply I | apply F].
Defined.

Lemma X13_run_agent_raises_no_Exception_witness :
  Main.run_agent scripted_search scripted_chain config limit_text 5
    "What is X?"
    {| searches := [Raise interrupt]; replies := [Ok initial_reply] |}
  = Some (Raise interrupt, world_answers []) /\
  isinstance_Exception interrupt = false.
Proof.
  split; [reflexivity|].
  apply (X13_run_agent_raises_no_Exception scripted_search scripted_chain
           config limit_text 5 "What is X?"
           {| searches := [Raise interrupt]; replies := [Ok initial_reply] |}
           (w' := world_answers [])).
  reflexivity.
Defined.

Lemma X14_run_agent_reports_a_failed_model_witness :
  isinstance_Exception (Exception_ "BackendUnavailable" "no reply left")
  = true /\
  Main.run_agent scripted_search scripted_chain config limit_text 5
    "What is X?"
    (world_searches [Ok "unused"])
  = Some (Ok (Main.Error "What is X?" "no reply left"),
          world_searches [Ok "unused"]).
Proof.
  split; [reflexivity|].
  apply (X14_run_agent_reports_a_failed_model scripted_search scripted_chain
           config limit_text 4 "What is X?" (world_searches [Ok "unused"])
           (e := Exception_ "BackendUnavailable" "no reply left")
           eq_refl eq_refl).
Defined.

Lemma X15_run_agent_answers_witness :
  (forall q w, absorbed (fst (search_down q w)) = true) /\
  enough_fuel config <= 5 /\
  exists a0 before m_last al,
    first_call_named "AnswerQuestion" (AI initial_reply) = Some a0 /\
    invoke search_down steady_chain config 5 question_X tt
    = Some (Ok (before ++ [AI m_last])%list, tt) /\
    first_call_named "ReviseAnswer" (AI m_last) = Some al /\
    Main.run_agent search_down steady_chain config limit_text 5
      "What is X?" tt
    = Some (Ok (Main.Answers "What is X?" (Some a0) (Some al) 6), tt).
Proof.
  split; [intros q w; reflexivity|]. split; [vm_compute; lia|].
  destruct (X15_run_agent_answers search_down steady_chain
              (cfg := config) limit_text (fuel := 5) "What is X?" tt
              (fun q w => eq_refl) steady_chain_conforms)
    as [m0 [w1 [a0 [before [m_last [al [[] [E0 [Ha [Ei [Hl E]]]]]]]]]]];
    [vm_compute; lia|].
  exists a0, before, m_last, al.
  inversion E0; subst m0. auto.
Defined.

Lemma X16_run_agent_loses_the_answers_witness :
  run_agent (config_with 1 false) 3
    (world_answers [hollow_reply; revised_reply])
  = Some (Ok [Human "What is X?"; AI hollow_reply;
              found "call_0" [("what is X", "snippet-1")]; AI revised_reply],
          world_answers []) /\
  first_key_not_shown (args (the_call hollow_reply)) = Some "missing" /\
  Main.run_agent scripted_search scripted_chain (config_with 1 false)
    limit_text 3
    "What is X?" (world_answers [hollow_reply; revised_reply])
  = Some (Ok (Main.Error "What is X?" "'missing'"), world_answers []).
Proof.
  split; [reflexivity|]. split; [reflexivity|].
  apply (X16_run_agent_loses_the_answers scripted_search scripted_chain
           (config_with 1 false) limit_text 3 "What is X?"
           (world_answers [hollow_reply; revised_reply])
           (final := [Human "What is X?"; AI hollow_reply;
                      found "call_0" [("what is X", "snippet-1")];
                      AI revised_reply])
           (initial := args (the_call hollow_reply))
           eq_refl eq_refl eq_refl eq_refl).
Defined.

